(** * Session Authenticator of exerciselog-app: a shallow embedding

    The development follows [AuthService] (auth.service.ts) method by method.
    The service is asynchronous, throws exceptions and works on three pieces
    of mutable state that outlive an exception: the user store behind
    [UsersService], the HTTP [Response] it writes cookies to, and the host
    runtime (wall clock, bcrypt salts, the JWT signer).  It is embedded in a
    state-and-exception monad [M]; every [await] is a monadic bind.

    A string is the sequence of its code units, here the code units below
    256. A Number is modelled, where the service computes with one, as an
    integer or [NaN] ([None]): [parseInt] rounds what it reads to the nearest
    double ([to_Number]) and a [Date] holds a time value within 8.64e15
    milliseconds of the epoch or is invalid ([TimeClip]). *)

From stdpp Require Import base option list strings gmap.
From Stdlib Require Import ZArith Ascii String Lia DecimalString DecimalPos DecimalN.

Local Open Scope Z_scope.

(** ** Data model *)

(** [UserEntity]: the record the user store returns.  [refreshToken] is the
    nullable column holding the bcrypt hash of the current refresh token. *)
Module UserEntity.
Record t := mk {
  id : string;
  username : string;
  email : string;
  password : string;
  refreshToken : option string
}.
End UserEntity.

Module CreateUserDto.
Record t := mk {
  username : string;
  email : string;
  password : string
}.
End CreateUserDto.

(** The only update the authenticator ever sends: [{ refreshToken: <hash> }]
    or [{ refreshToken: null }]. *)
Module UpdateUserDto.
Record t := mk { refreshToken : option string }.

Definition apply (p : t) (u : UserEntity.t) : UserEntity.t :=
  UserEntity.mk (UserEntity.id u) (UserEntity.username u)
    (UserEntity.email u) (UserEntity.password u) (refreshToken p).
End UpdateUserDto.

(** [TokenPayload]: [{ userId }], nothing else. *)
Module TokenPayload.
Record t := mk { userId : string }.
End TokenPayload.

(** Options handed to [jwtService.sign]. [secret] is [process.env.X], which
    is [undefined] when the variable is not set. *)
Module SignOptions.
Record t := mk { secret : option string; expiresIn : string }.
End SignOptions.

(** A JavaScript [Date]: its time value in milliseconds, [None] for an
    invalid date (time value [NaN]). *)
Definition Date : Type := option Z.

Module CookieOptions.
Record t := mk { httpOnly : bool; secure : bool; expires : Date }.
End CookieOptions.

(** What [generateTokens] returns. *)
Module Tokens.
Record t := mk {
  expireAccessToken : Date;
  expireRefreshToken : Date;
  accessToken : string;
  refreshToken : string
}.
End Tokens.

(** The HTTP response, as the sequence of calls made on it. *)
Inductive ResponseCall :=
| cookie (name value : string) (options : CookieOptions.t)
| clearCookie (name : string).

(** Thrown values. [UnauthorizedException] is Nest's 401 exception; every
    other thrown value (NotFoundException, TypeError, a database error, an
    error of the signer) is an [Error]. *)
Inductive exn :=
| UnauthorizedException (message : string)
| Error (message : string).

(** [new UnauthorizedException()] without argument. *)
Definition UnauthorizedException_default : exn :=
  UnauthorizedException "Unauthorized".

Definition is_Unauthorized (e : exn) : bool :=
  match e with UnauthorizedException _ => true | Error _ => false end.

(** How a call ends: it returns a value or throws. *)
Inductive completion (A : Type) :=
| Return (a : A)
| Throw (e : exn).
Arguments Return {A} a.
Arguments Throw {A} e.

(** ** [parseInt] and template literals *)

(** The white space and the line terminators of JavaScript among the code
    units below 256: tab, line feed, vertical tab, form feed, carriage
    return, space and the no-break space U+00A0. *)
Definition is_white (c : ascii) : bool :=
  let n := nat_of_ascii c in
  ((9 <=? n)%nat && (n <=? 13)%nat) || (n =? 32)%nat || (n =? 160)%nat.

Fixpoint trimStart (s : string) : string :=
  match s with
  | String c s' => if is_white c then trimStart s' else s
  | EmptyString => EmptyString
  end.

Definition digit_value (radix : Z) (c : ascii) : option Z :=
  let n := Z.of_nat (nat_of_ascii c) in
  let d := if ((48 <=? n) && (n <=? 57))%Z then n - 48
           else if ((97 <=? n) && (n <=? 122))%Z then n - 87
           else if ((65 <=? n) && (n <=? 90))%Z then n - 55
           else 36 in
  if (d <? radix)%Z then Some d else None.

(** The longest prefix of digits of [s], read in [radix]; [acc] is the value
    read so far, [None] when no digit has been read. *)
Fixpoint parse_digits (radix : Z) (s : string) (acc : option Z) : option Z :=
  match s with
  | String c s' =>
      match digit_value radix c with
      | Some d => parse_digits radix s' (Some (radix * default 0 acc + d))
      | None => acc
      end
  | EmptyString => acc
  end.

(** The Number nearest to an integer: the integer itself below 2^53,
    otherwise the integer rounded to 53 significant bits, ties to even.
    (Beyond the largest double JavaScript has [Infinity]; the service only
    ever adds the result to a time value, and both are out of the range of
    [Date].) *)
Definition to_Number (z : Z) : Z :=
  let m := Z.abs z in
  if m <? 2 ^ 53 then z
  else
    let e := Z.log2 m - 52 in
    let q := m / 2 ^ e in
    let r := m mod 2 ^ e in
    let half := 2 ^ (e - 1) in
    let q' := if (half <? r) || ((r =? half) && Z.odd q) then q + 1 else q in
    Z.sgn z * (q' * 2 ^ e).

(** [parseInt(s)] with no radix argument: leading white space is skipped, a
    sign is read, a [0x] prefix selects base 16, then the longest prefix of
    digits is read and its value, with the sign, is returned as a Number;
    [NaN] when there is no digit. *)
Definition parseInt_string (s : string) : option Z :=
  let s1 := trimStart s in
  let '(sign, s2) :=
    match s1 with
    | String "-" t => (-1, t)
    | String "+" t => (1, t)
    | _ => (1, s1)
    end in
  let '(radix, s3) :=
    match s2 with
    | String "0" (String "x" t) => (16, t)
    | String "0" (String "X" t) => (16, t)
    | _ => (10, s2)
    end in
  (λ v, to_Number (sign * v)) <$> parse_digits radix s3 None.

(** [ToString] of a value that is a string or [undefined]. *)
Definition ToString (v : option string) : string := default "undefined" v.

Definition parseInt (v : option string) : option Z :=
  parseInt_string (ToString v).

(** The template literal [`${v}ms`]. *)
Definition template_ms (v : option string) : string := ToString v +:+ "ms".

(** The largest time value of a [Date], in milliseconds from the epoch. *)
Definition max_time : Z := 8640000000000000.

(** [TimeClip]: a time value out of range makes the date invalid. *)
Definition TimeClip (v : Z) : Date :=
  if Z.abs v <=? max_time then Some v else None.

(** [d.setTime(d.getTime() + n)] for a date with time value [t]: the sum of
    the two Numbers is a Number, [NaN] if [n] is, and [setTime] clips it. *)
Definition setTime_plus (t : Z) (n : option Z) : Date :=
  n ≫= λ n, TimeClip (to_Number (t + n)).


(** The decimal numeral of a natural number, the way a lifetime in
    milliseconds is written in the environment. *)
Definition decimal (n : N) : string :=
  NilEmpty.string_of_uint (N.to_uint n).

(** ** Collaborators *)

(** The user store, [UsersService]: an interface over a store state [S].
    Lookups are queries; [create] and [update] return the new store state
    together with their completion, so that a write which throws can still be
    followed.  [table] is the abstraction function: the rows the store holds,
    keyed by user id.

    [findOne(email, throwIfNotFound?)] is called with one argument by
    [validateUser] and with [false] by [signup]; the optional flag is kept as
    an [option bool]. A lookup may return [null] ([Return None]). *)
Class UsersService (S : Type) := {
  findOne : string → option bool → S → completion (option UserEntity.t);
  findOneById : string → S → completion (option UserEntity.t);
  create : CreateUserDto.t → S → completion UserEntity.t * S;
  update : string → UpdateUserDto.t → S → completion UserEntity.t * S;
  table : S → gmap string UserEntity.t
}.

(** Modelled from the spec: the contract of the user store, whose
    implementation (users.service.ts) is missing.
    The spec gives [findById(id) -> User | fails NotFound],
    [findByEmail(email) -> User | absent], [create(data) -> User] and
    [updateRefreshTokenHash(id, hashOrNull) -> User]. A successful write
    changes exactly one row; a write that throws changes none. *)
Class UsersServiceLaws (S : Type) `{UsersService S} : Prop := {
  findOneById_table : ∀ i s u,
    findOneById i s = Return (Some u) ↔ table s !! i = Some u;
  findOne_sound : ∀ e t s u,
    findOne e t s = Return (Some u) →
    UserEntity.email u = e ∧ ∃ i, table s !! i = Some u;
  findOne_present : ∀ e t s i u,
    table s !! i = Some u → UserEntity.email u = e →
    ∃ u', findOne e t s = Return (Some u');
  findOne_absent : ∀ e s,
    (∀ i u, table s !! i = Some u → UserEntity.email u ≠ e) →
    findOne e (Some false) s = Return None;
  update_ok : ∀ i p s u' s',
    update i p s = (Return u', s') →
    ∃ u, table s !! i = Some u ∧ u' = UpdateUserDto.apply p u ∧
         table s' = <[i := u']> (table s);
  update_fail : ∀ i p s e s',
    update i p s = (Throw e, s') → table s' = table s;
  create_ok : ∀ d s u s',
    create d s = (Return u, s') →
    table s !! UserEntity.id u = None ∧
    UserEntity.email u = CreateUserDto.email d ∧
    table s' = <[UserEntity.id u := u]> (table s);
  create_fail : ∀ d s e s',
    create d s = (Throw e, s') → table s' = table s
}.

(** The host runtime over a state [R]: the wall clock read by [new Date()],
    the salted hash [encrypt] and the comparator [compareValueWithHash] of
    utils/bcrypt, and [jwtService.sign]. Hashing draws a salt and signing
    reads the clock, so both pass the runtime state on. The comparator is
    called with [user.refreshToken], which is [null] for a user without a
    stored hash, hence the [option]. *)
Class Runtime (R : Type) := {
  Date_now : R → Z * R;
  encrypt : string → R → completion string * R;
  compareValueWithHash : string → option string → completion bool;
  jwtService_sign :
    TokenPayload.t → SignOptions.t → R → completion string * R
}.

(** Modelled from the spec: the one-way hash of utils/bcrypt (missing). The
    comparator never accepts a missing hash, it accepts a value against a
    hash made from it, and a hash is never the value it was made from. *)
Class HashLaws (R : Type) `{Runtime R} : Prop := {
  compare_null : ∀ v, compareValueWithHash v None ≠ Return true;
  compare_encrypt : ∀ v r h r',
    encrypt v r = (Return h, r') → compareValueWithHash v (Some h) = Return true;
  encrypt_not_plain : ∀ v r h r', encrypt v r = (Return h, r') → h ≠ v
}.


(** ** State and the monad of the service *)

Section Service.
Context {S R : Type} `{UsersService S} `{Runtime R}.

(** Everything an [AuthService] call can read or change: the store, the
    [response] object the controller hands in, the runtime, and
    [process.env]. *)
Record State := mkState {
  usersService : S;
  response : list ResponseCall;
  runtime : R;
  process_env : gmap string string
}.

Definition set_usersService (s : S) (w : State) : State :=
  mkState s (response w) (runtime w) (process_env w).
Definition set_response (l : list ResponseCall) (w : State) : State :=
  mkState (usersService w) l (runtime w) (process_env w).
Definition set_runtime (r : R) (w : State) : State :=
  mkState (usersService w) (response w) r (process_env w).

(** A computation: from a state to a completion and the state left
    behind. The state survives a [Throw]. *)
Definition M (A : Type) : Type := State → completion A * State.

Definition ret {A} (a : A) : M A := λ w, (Return a, w).
Definition throw {A} (e : exn) : M A := λ w, (Throw e, w).
Definition bind {A B} (c : M A) (k : A → M B) : M B :=
  λ w, match c w with
       | (Return a, w') => k a w'
       | (Throw e, w') => (Throw e, w')
       end.
(** [try { body } catch (error) { handler }] *)
Definition try_catch {A} (body : M A) (handler : exn → M A) : M A :=
  λ w, match body w with
       | (Return a, w') => (Return a, w')
       | (Throw e, w') => handler e w'
       end.

Notation "x <- c ;; k" := (bind c (λ x, k))
  (at level 100, c at next level, right associativity).
Notation "c ;;; k" := (bind c (λ _, k))
  (at level 100, right associativity).

(** *** The calls the service makes *)

Definition usersService_findOne (email : string) (flag : option bool)
  : M (option UserEntity.t) :=
  λ w, (findOne email flag (usersService w), w).

Definition usersService_findOneById (i : string) : M (option UserEntity.t) :=
  λ w, (findOneById i (usersService w), w).

Definition usersService_create (d : CreateUserDto.t) : M UserEntity.t :=
  λ w, let '(r, s') := create d (usersService w) in (r, set_usersService s' w).

Definition usersService_update (i : string) (p : UpdateUserDto.t)
  : M UserEntity.t :=
  λ w, let '(r, s') := update i p (usersService w) in (r, set_usersService s' w).

Definition new_Date : M Z :=
  λ w, let '(t, r') := Date_now (runtime w) in (Return t, set_runtime r' w).

Definition bcrypt_encrypt (v : string) : M string :=
  λ w, let '(c, r') := encrypt v (runtime w) in (c, set_runtime r' w).

Definition bcrypt_compare (v : string) (h : option string) : M bool :=
  λ w, (compareValueWithHash v h, w).

Definition jwt_sign (p : TokenPayload.t) (o : SignOptions.t) : M string :=
  λ w, let '(c, r') := jwtService_sign p o (runtime w) in (c, set_runtime r' w).

(** [process.env.NAME] *)
Definition env (name : string) : M (option string) :=
  λ w, (Return (process_env w !! name), w).

(** [response.cookie(name, value, options)]: the cookie is serialised at
    once, which throws a [TypeError] on an [expires] that is an invalid
    date; otherwise the header is appended. *)
Definition response_cookie (name value : string) (o : CookieOptions.t)
  : M unit :=
  match CookieOptions.expires o with
  | None => throw (Error "TypeError: option expires is invalid")
  | Some _ =>
      λ w, (Return tt, set_response (response w ++ [cookie name value o]) w)
  end.

Definition response_clearCookie (name : string) : M unit :=
  λ w, (Return tt, set_response (response w ++ [clearCookie name]) w).

(** Reading a property of a value that may be [null]: a [TypeError] when
    it is. *)
Definition member (u : option UserEntity.t) : M UserEntity.t :=
  match u with
  | Some u => ret u
  | None => throw (Error "TypeError: Cannot read properties of null")
  end.

(** *** [AuthService] *)

Definition ACCESS_TOKEN_COOKIE : string := "Authentication".
Definition REFRESH_TOKEN_COOKIE : string := "Refresh".

Definition generateTokens (userId : string) : M Tokens.t :=
  now1 <- new_Date ;;
  accessMs <- env "JWT_ACCESS_TOKEN_EXPIRATION_MS" ;;
  let expireAccessToken := setTime_plus now1 (parseInt accessMs) in
  now2 <- new_Date ;;
  refreshMs <- env "JWT_REFRESH_TOKEN_EXPIRATION_MS" ;;
  let expireRefreshToken := setTime_plus now2 (parseInt refreshMs) in
  let tokenPayload := TokenPayload.mk userId in
  accessSecret <- env "JWT_ACCESS_TOKEN_SECRET" ;;
  accessMs' <- env "JWT_ACCESS_TOKEN_EXPIRATION_MS" ;;
  accessToken <- jwt_sign tokenPayload
                   (SignOptions.mk accessSecret (template_ms accessMs')) ;;
  refreshSecret <- env "JWT_REFRESH_TOKEN_SECRET" ;;
  refreshMs' <- env "JWT_REFRESH_TOKEN_EXPIRATION_MS" ;;
  refreshToken <- jwt_sign tokenPayload
                    (SignOptions.mk refreshSecret (template_ms refreshMs')) ;;
  ret (Tokens.mk expireAccessToken expireRefreshToken accessToken refreshToken).

Definition setCookies (userId accessToken refreshToken : string)
    (expireAccessToken expireRefreshToken : Date) : M unit :=
  hash <- bcrypt_encrypt refreshToken ;;
  usersService_update userId (UpdateUserDto.mk (Some hash)) ;;;
  response_cookie ACCESS_TOKEN_COOKIE accessToken
    (CookieOptions.mk true true expireAccessToken) ;;;
  response_cookie REFRESH_TOKEN_COOKIE refreshToken
    (CookieOptions.mk true true expireRefreshToken).

Definition clearCookies : M unit :=
  response_clearCookie REFRESH_TOKEN_COOKIE ;;;
  response_clearCookie ACCESS_TOKEN_COOKIE.

Definition login (user : UserEntity.t) : M unit :=
  tokens <- generateTokens (UserEntity.id user) ;;
  setCookies (UserEntity.id user)
    (Tokens.accessToken tokens) (Tokens.refreshToken tokens)
    (Tokens.expireAccessToken tokens) (Tokens.expireRefreshToken tokens).

Definition signup (userData : CreateUserDto.t) : M unit :=
  existingUser <- usersService_findOne (CreateUserDto.email userData) (Some false) ;;
  match existingUser with
  | Some _ => throw (UnauthorizedException "User already exists.")
  | None =>
      newUser <- usersService_create userData ;;
      tokens <- generateTokens (UserEntity.id newUser) ;;
      setCookies (UserEntity.id newUser)
        (Tokens.accessToken tokens) (Tokens.refreshToken tokens)
        (Tokens.expireAccessToken tokens) (Tokens.expireRefreshToken tokens)
  end.

Definition logout (user : UserEntity.t) : M unit :=
  usersService_update (UserEntity.id user) (UpdateUserDto.mk None) ;;;
  clearCookies.

Definition validateUser (email password : string) : M UserEntity.t :=
  try_catch
    (found <- usersService_findOne email None ;;
     user <- member found ;;
     isAuthorized <- bcrypt_compare password (Some (UserEntity.password user)) ;;
     if isAuthorized : bool then ret user
     else throw UnauthorizedException_default)
    (λ error, throw (UnauthorizedException "Credentials are not valid.")).

Definition verifyUserRefreshToken (refreshToken userId : string)
  : M UserEntity.t :=
  try_catch
    (found <- usersService_findOneById userId ;;
     user <- member found ;;
     authenticated <- bcrypt_compare refreshToken (UserEntity.refreshToken user) ;;
     if authenticated : bool then ret user
     else throw UnauthorizedException_default)
    (λ error, throw (UnauthorizedException "Refresh token is not valid.")).

End Service.

Arguments State : clear implicits.
Arguments M : clear implicits.

(** ** Requests in sequence *)

Section Requests.
Context {S R : Type} `{UsersService S} `{Runtime R}.

(** One call of a public operation of the service, as a controller makes it
    while handling one request. *)
Inductive Call :=
| Login (user : UserEntity.t)
| Signup (userData : CreateUserDto.t)
| Logout (user : UserEntity.t)
| ValidateUser (email password : string)
| VerifyUserRefreshToken (refreshToken userId : string).

(** The state a call leaves behind, whether it returned or threw. Every
    request comes with a response of its own, empty to begin with. *)
Definition perform (c : Call) (w : State S R) : State S R :=
  let w0 := set_response [] w in
  match c with
  | Login user => (login user w0).2
  | Signup userData => (signup userData w0).2
  | Logout user => (logout user w0).2
  | ValidateUser email password => (validateUser email password w0).2
  | VerifyUserRefreshToken refreshToken userId =>
      (verifyUserRefreshToken refreshToken userId w0).2
  end.

Fixpoint run (cs : list Call) (w : State S R) : State S R :=
  match cs with
  | [] => w
  | c :: cs' => run cs' (perform c w)
  end.

(** The row of user [i]. *)
Definition stored (i : string) (w : State S R) : option UserEntity.t :=
  table (usersService w) !! i.

(** The refresh-token hashes the store holds for user [i]. *)
Definition active_hashes (i : string) (w : State S R) : list string :=
  match stored i w with
  | Some u => match UserEntity.refreshToken u with Some h => [h] | None => [] end
  | None => []
  end.

(** [c] is a login on behalf of user [i]. *)
Definition is_login_of (i : string) (c : Call) : bool :=
  match c with
  | Login user => bool_decide (UserEntity.id user = i)
  | _ => false
  end.

End Requests.

(** ** The cookies a client holds *)

(** The last [Set-Cookie] header a client has received under each name:
    [cookie] puts the value and its options under the name, [clearCookie]
    drops the name, present or not. The expiry is kept among the options;
    whether a cookie has expired is a matter of the client's clock and is not
    decided here. *)
Definition receive (jar : gmap string (string * CookieOptions.t))
    (c : ResponseCall) : gmap string (string * CookieOptions.t) :=
  match c with
  | cookie name value options => <[name := (value, options)]> jar
  | clearCookie name => delete name jar
  end.

Definition cookieJar (jar : gmap string (string * CookieOptions.t))
    (calls : list ResponseCall) : gmap string (string * CookieOptions.t) :=
  foldl receive jar calls.

(** ** Start-up (main.ts) *)

Module Main.

Record OpenAPIConfig := mkConfig {
  title : string;
  description : string;
  version : string
}.

(** The framework calls [bootstrap] makes, over the types of the
    application, of the OpenAPI document and of the HTTP adapter. Every one
    of them may throw. [NestFactory.create] builds the modules of the
    application (AppModule) in a process whose environment it can read. *)
Class Nest (App Doc Adapter : Type) := {
  NestFactory_create : gmap string string → completion App;
  SwaggerModule_createDocument : App → OpenAPIConfig → completion Doc;
  app_get_HttpAdapterHost : App → completion Adapter;
  SwaggerModule_setup : string → App → Doc → completion App;
  app_use : string → App → completion App;
  app_useGlobalPipes : string → App → completion App;
  app_useGlobalFilters : string → Adapter → App → completion App;
  app_listen : Z → App → completion App
}.



(** The four configuration values the token generator reads. *)
Definition required_config : list string :=
  ["JWT_ACCESS_TOKEN_SECRET"; "JWT_ACCESS_TOKEN_EXPIRATION_MS";
   "JWT_REFRESH_TOKEN_SECRET"; "JWT_REFRESH_TOKEN_EXPIRATION_MS"]%string.

Definition config_complete (process_env : gmap string string) : bool :=
  forallb (λ k, bool_decide (is_Some (process_env !! k))) required_config.

(** Modelled from the spec: the validation of the configuration at
    start-up. The construction of the application (app.module.ts is
    missing) is where the spec places it: the four values are required, and a
    missing one is a misconfiguration that is fatal at start-up. *)
Class NestLaws (App Doc Adapter : Type) `{Nest App Doc Adapter} : Prop := {
  create_validates : ∀ process_env,
    config_complete process_env = false →
    ∃ e, NestFactory_create process_env = Throw e
}.

End Main.

(** ** Vocabulary of the statements *)

Section Vocabulary.
Context {S R : Type} `{UsersService S} `{Runtime R}.

(** The one exception of each verification. *)
Definition credentials_not_valid : exn :=
  UnauthorizedException "Credentials are not valid.".
Definition refresh_token_not_valid : exn :=
  UnauthorizedException "Refresh token is not valid.".


(** The sign options of the two tokens, as [generateTokens] builds them from
    the environment. *)
Definition access_options (process_env : gmap string string) : SignOptions.t :=
  SignOptions.mk (process_env !! "JWT_ACCESS_TOKEN_SECRET")
    (template_ms (process_env !! "JWT_ACCESS_TOKEN_EXPIRATION_MS")).
Definition refresh_options (process_env : gmap string string) : SignOptions.t :=
  SignOptions.mk (process_env !! "JWT_REFRESH_TOKEN_SECRET")
    (template_ms (process_env !! "JWT_REFRESH_TOKEN_EXPIRATION_MS")).

(** What [response.cookie] throws on an invalid [expires]. *)
Definition cookie_TypeError : exn :=
  Error "TypeError: option expires is invalid".

(** The two cookies [setCookies] writes, in the order it writes them. *)
Definition session_cookies (accessToken refreshToken : string)
    (expireAccessToken expireRefreshToken : Date) : list ResponseCall :=
  [cookie "Authentication" accessToken
     (CookieOptions.mk true true expireAccessToken);
   cookie "Refresh" refreshToken
     (CookieOptions.mk true true expireRefreshToken)].

(** The row of [u] after [{ refreshToken: v }] has been written to it. *)
Definition with_refreshToken (v : option string) (u : UserEntity.t)
  : UserEntity.t := UpdateUserDto.apply (UpdateUserDto.mk v) u.

(** The rows after a call: the same, or the row of [i] rewritten with a
    refresh-token value taken from [P]. *)
Definition rewrites (i : string) (P : option string → Prop)
    (t t' : gmap string UserEntity.t) : Prop :=
  ∃ v u, P v ∧ t !! i = Some u ∧ t' = <[i := with_refreshToken v u]> t.

(** User [i] is stored and has no refresh-token hash. *)
Definition logged_out (i : string) (w : State S R) : Prop :=
  ∃ u, stored i w = Some u ∧ UserEntity.refreshToken u = None.


(** The name a call on the response is about. *)
Definition call_name (c : ResponseCall) : string :=
  match c with
  | cookie name _ _ => name
  | clearCookie name => name
  end.

Definition is_cookie (c : ResponseCall) : bool :=
  match c with cookie _ _ _ => true | clearCookie _ => false end.

End Vocabulary.

(** ** Vocabulary of the further properties *)

Section FurtherVocabulary.
Context {S R : Type} `{UsersService S} `{Runtime R}.

(** [c] is a logout on behalf of user [i]. *)
Definition is_logout_of (i : string) (c : Call) : bool :=
  match c with
  | Logout user => bool_decide (UserEntity.id user = i)
  | _ => false
  end.

Definition is_signup (c : Call) : bool :=
  match c with Signup _ => true | _ => false end.

(** Two rows that differ at most in their refresh-token hash. *)
Definition same_credentials (u u' : UserEntity.t) : Prop :=
  UserEntity.id u' = UserEntity.id u ∧
  UserEntity.username u' = UserEntity.username u ∧
  UserEntity.email u' = UserEntity.email u ∧
  UserEntity.password u' = UserEntity.password u.

(** A text that can follow a decimal numeral without being read by
    [parseInt]: it is empty or begins with a character that is neither a
    decimal digit nor the [x] of a hexadecimal prefix. *)
Definition ends_numeral (rest : string) : bool :=
  match rest with
  | EmptyString => true
  | String c _ =>
      match digit_value 10 c with
      | Some _ => false
      | None => negb (Ascii.eqb c "x" || Ascii.eqb c "X")
      end
  end.

(** A text in which [parseInt] finds no number: it is empty, or its first
    character is an ASCII character that is not white space, not a sign and
    not a decimal digit. *)
Definition starts_non_numeric (s : string) : bool :=
  match s with
  | EmptyString => true
  | String c _ =>
      (nat_of_ascii c <? 128)%nat &&
      negb (is_white c) && negb (Ascii.eqb c "-") && negb (Ascii.eqb c "+") &&
      match digit_value 10 c with Some _ => false | None => true end
  end.

End FurtherVocabulary.

(** ** A store in memory and a small runtime

    Concrete collaborators, used to run the service on examples. *)

Module InMemory.

Definition NotFound : exn := Error "NotFoundException".

(** The first row with email [e]. *)
Definition by_email (e : string) (s : gmap string UserEntity.t)
  : option UserEntity.t :=
  snd <$> List.find (λ kv, bool_decide (UserEntity.email kv.2 = e)) (map_to_list s).

(** Modelled from the spec: [findByEmail(email) -> User | absent] of the user
    store (users.service.ts is missing), on rows kept in a finite map keyed
    by id. It returns [null] on an unknown email when called with [false] and
    fails with NotFound otherwise. *)
Definition mem_findOne (e : string) (flag : option bool)
    (s : gmap string UserEntity.t) : completion (option UserEntity.t) :=
  match by_email e s with
  | Some u => Return (Some u)
  | None => match flag with
            | Some false => Return None
            | _ => Throw NotFound
            end
  end.

(** Modelled from the spec: [findById(id) -> User | fails NotFound] of the
    user store (users.service.ts is missing). *)
Definition mem_findOneById (i : string) (s : gmap string UserEntity.t)
  : completion (option UserEntity.t) :=
  match s !! i with
  | Some u => Return (Some u)
  | None => Throw NotFound
  end.

(** Modelled from the spec: [updateRefreshTokenHash(id, hashOrNull) -> User]
    of the user store (users.service.ts is missing); it fails with NotFound
    on an unknown id. *)
Definition mem_update (i : string) (p : UpdateUserDto.t)
    (s : gmap string UserEntity.t)
  : completion UserEntity.t * gmap string UserEntity.t :=
  match s !! i with
  | Some u => let u' := UpdateUserDto.apply p u in (Return u', <[i := u']> s)
  | None => (Throw NotFound, s)
  end.

(** Modelled from the spec: the one-way hash of utils/bcrypt (missing), here
    a tagged copy of the value. *)
Definition toy_hash (v : string) : string := "$2b$" +:+ v.

(** Modelled from the spec: [create(data) -> User] of the user store
    (users.service.ts is missing); it numbers the new row, stores the
    password hashed and no refresh-token hash. *)
Definition mem_create (d : CreateUserDto.t) (s : gmap string UserEntity.t)
  : completion UserEntity.t * gmap string UserEntity.t :=
  let i := "user-" +:+ decimal (N.of_nat (size s)) in
  match s !! i with
  | Some _ => (Throw (Error "Unique constraint failed"), s)
  | None =>
      let u := UserEntity.mk i (CreateUserDto.username d) (CreateUserDto.email d)
                 (toy_hash (CreateUserDto.password d)) None in
      (Return u, <[i := u]> s)
  end.

#[export] Instance mem_store : UsersService (gmap string UserEntity.t) := {|
  findOne := mem_findOne;
  findOneById := mem_findOneById;
  create := mem_create;
  update := mem_update;
  table := λ s, s
|}.

Definition is_digit (c : ascii) : bool :=
  let n := nat_of_ascii c in (48 <=? n)%nat && (n <=? 57)%nat.

Fixpoint skip (p : ascii → bool) (s : string) : string :=
  match s with
  | String c s' => if p c then skip p s' else s
  | EmptyString => EmptyString
  end.

Definition starts_with_digit (s : string) : bool :=
  match s with String c _ => is_digit c | EmptyString => false end.

(** The timespans in milliseconds that the signer's reader of [expiresIn]
    accepts: at most 100 characters, an optional minus sign, digits, or
    digits (possibly none) then a dot then digits, blanks, and the unit
    "ms". *)
Definition timespan_ms (s : string) : bool :=
  (String.length s <=? 100)%nat &&
  let s1 := match s with String "-" t => t | _ => s end in
  let s2 := skip is_digit s1 in
  let unit_at (r : string) :=
    String.eqb (skip (λ c, Ascii.eqb c " ") r) "ms" in
  match s2 with
  | String "." t => starts_with_digit t && unit_at (skip is_digit t)
  | _ => starts_with_digit s1 && unit_at s2
  end.

(** A runtime whose state is the clock: every reading takes a millisecond.
    The signer writes its inputs into the token; like the signer of the
    service it refuses to sign without a secret or with an [expiresIn] that
    is not a timespan. *)
Definition toy_sign {R : Type} (p : TokenPayload.t) (o : SignOptions.t) (r : R)
  : completion string * R :=
  match SignOptions.secret o with
  | None => (Throw (Error "secretOrPrivateKey must have a value"), r)
  | Some k =>
      if timespan_ms (SignOptions.expiresIn o) then
        (Return ("jwt." +:+ TokenPayload.userId p +:+ "." +:+
                 SignOptions.expiresIn o +:+ "." +:+ k), r)
      else (Throw (Error "expiresIn should be a number of seconds or string representing a timespan"), r)
  end.

(** Modelled from the spec: the comparator of utils/bcrypt (missing); it
    accepts a value against its tagged copy and throws on a missing hash. *)
Definition toy_compare (v : string) (h : option string) : completion bool :=
  match h with
  | Some h => Return (bool_decide (h = toy_hash v))
  | None => Throw (Error "data and hash arguments required")
  end.

#[export] Instance toy_runtime : Runtime Z := {|
  Date_now := λ r, (r, r + 1);
  encrypt := λ v r, (Return (toy_hash v), r);
  compareValueWithHash := toy_compare;
  jwtService_sign := toy_sign
|}.

(** A runtime whose state is the list of the readings its clock will give,
    for a clock that is set between two readings. *)
#[export] Instance scripted_runtime : Runtime (list Z) := {|
  Date_now := λ r, match r with t :: r' => (t, r') | [] => (0, []) end;
  encrypt := λ v r, (Return (toy_hash v), r);
  compareValueWithHash := toy_compare;
  jwtService_sign := toy_sign
|}.

(** The application of the example framework, as far as [bootstrap]
    configures it. *)
Record NestApplication := mkApp {
  swagger : option (string * Main.OpenAPIConfig);
  middleware : list string;
  globalPipes : list string;
  globalFilters : list string;
  port : option Z
}.

(** Modelled from the spec: a framework whose construction of the
    application (app.module.ts is missing) refuses an environment that
    lacks one of the four required values. *)
#[export] Instance validating_nest
  : Main.Nest NestApplication Main.OpenAPIConfig string := {|
  Main.NestFactory_create := λ process_env,
    if Main.config_complete process_env
    then Return (mkApp None [] [] [] None)
    else Throw (Error "Misconfiguration");
  Main.SwaggerModule_createDocument := λ app c, Return c;
  Main.app_get_HttpAdapterHost := λ app, Return "httpAdapter"%string;
  Main.SwaggerModule_setup := λ path app document,
    Return (mkApp (Some (path, document)) (middleware app) (globalPipes app)
              (globalFilters app) (port app));
  Main.app_use := λ m app,
    Return (mkApp (swagger app) (middleware app ++ [m]) (globalPipes app)
              (globalFilters app) (port app));
  Main.app_useGlobalPipes := λ p app,
    Return (mkApp (swagger app) (middleware app) (globalPipes app ++ [p])
              (globalFilters app) (port app));
  Main.app_useGlobalFilters := λ f adapter app,
    Return (mkApp (swagger app) (middleware app) (globalPipes app)
              (globalFilters app ++ [f]) (port app));
  Main.app_listen := λ p app,
    Return (mkApp (swagger app) (middleware app) (globalPipes app)
              (globalFilters app) (Some p))
|}.

(** A complete configuration: fifteen minutes for the access token, seven
    days for the refresh token. *)
Definition config : gmap string string :=
  list_to_map [("JWT_ACCESS_TOKEN_SECRET", "s-access");
               ("JWT_ACCESS_TOKEN_EXPIRATION_MS", "900000");
               ("JWT_REFRESH_TOKEN_SECRET", "s-refresh");
               ("JWT_REFRESH_TOKEN_EXPIRATION_MS", "604800000")]%string.

Definition alice : UserEntity.t :=
  UserEntity.mk "u1" "alice" "alice@example.com" (toy_hash "pw-alice") None.
Definition bob : UserEntity.t :=
  UserEntity.mk "u2" "bob" "bob@example.com" (toy_hash "pw-bob") None.

Definition world0 : State (gmap string UserEntity.t) Z :=
  mkState (<["u1" := alice]> (<["u2" := bob]> ∅)) [] 1000 config.

(** The state after alice has logged in, and the refresh token she got. *)
Definition world1 : State (gmap string UserEntity.t) Z :=
  (login alice world0).2.
Definition alice_refresh : string := "jwt.u1.604800000ms.s-refresh".

(** The state after alice has then logged out. *)
Definition world2 : State (gmap string UserEntity.t) Z :=
  (logout alice world1).2.


(** A state in which alice's row holds the hash of an earlier token. *)
Definition alice_earlier : string := "jwt.u1.604800000ms.s-earlier".
Definition world_earlier : State (gmap string UserEntity.t) Z :=
  mkState
    (<["u1" := with_refreshToken (Some (toy_hash alice_earlier)) alice]>
       (<["u2" := bob]> ∅))
    [] 1000 config.

(** A user record whose row has been deleted from the store. *)
Definition ghost : UserEntity.t :=
  UserEntity.mk "u9" "ghost" "ghost@example.com" (toy_hash "pw-ghost") None.

Definition carol_data : CreateUserDto.t :=
  CreateUserDto.mk "carol" "carol@example.com" "pw-carol".
Definition alice_again : CreateUserDto.t :=
  CreateUserDto.mk "alice2" "alice@example.com" "pw".


(** The configuration without the secret of the refresh token. *)
Definition world_without_secret : State (gmap string UserEntity.t) Z :=
  mkState (<["u1" := alice]> (<["u2" := bob]> ∅)) [] 1000
    (delete "JWT_REFRESH_TOKEN_SECRET"%string config).

(** The row the store makes of carol's data, and the store once it holds
    it. *)
Definition carol_row : UserEntity.t :=
  UserEntity.mk "user-2" "carol" "carol@example.com" (toy_hash "pw-carol") None.
Definition store_with_carol : gmap string UserEntity.t :=
  <["user-2" := carol_row]> (<["u1" := alice]> (<["u2" := bob]> ∅)).

(** Lifetimes written with a unit, with a minus sign, and in words. *)
Definition world_with_lifetimes (access refresh : string)
  : State (gmap string UserEntity.t) Z :=
  mkState (<["u1" := alice]> (<["u2" := bob]> ∅)) [] 1000
    (<["JWT_ACCESS_TOKEN_EXPIRATION_MS"%string := access]>
       (<["JWT_REFRESH_TOKEN_EXPIRATION_MS"%string := refresh]> config)).


End InMemory.

(** * Properties *)

(** ** The two verifications *)

Section Verification.
Context {S R : Type} `{UsersService S} `{Runtime R}.

(** [validateUser] by cases on what the lookup and the comparison give. *)
Lemma validateUser_cases (email password : string) (w : State S R) :
  validateUser email password w =
    match findOne email None (usersService w) with
    | Return (Some user) =>
        match compareValueWithHash password (Some (UserEntity.password user)) with
        | Return true => (Return user, w)
        | _ => (Throw credentials_not_valid, w)
        end
    | _ => (Throw credentials_not_valid, w)
    end.
Proof.
  unfold validateUser, try_catch, bind, usersService_findOne, bcrypt_compare.
  destruct (findOne email None (usersService w)) as [[user|]|e]; cbn; try done.
  destruct (compareValueWithHash _ _) as [[|]|e]; done.
Qed.

Lemma verifyUserRefreshToken_cases (refreshToken userId : string) (w : State S R) :
  verifyUserRefreshToken refreshToken userId w =
    match findOneById userId (usersService w) with
    | Return (Some user) =>
        match compareValueWithHash refreshToken (UserEntity.refreshToken user) with
        | Return true => (Return user, w)
        | _ => (Throw refresh_token_not_valid, w)
        end
    | _ => (Throw refresh_token_not_valid, w)
    end.
Proof.
  unfold verifyUserRefreshToken, try_catch, bind, usersService_findOneById,
    bcrypt_compare.
  destruct (findOneById userId (usersService w)) as [[user|]|e]; cbn; try done.
  destruct (compareValueWithHash _ _) as [[|]|e]; done.
Qed.

Lemma validateUser_state email password (w : State S R) :
  (validateUser email password w).2 = w.
Proof.
  rewrite validateUser_cases.
  repeat case_match; done.
Qed.

Lemma verifyUserRefreshToken_state refreshToken userId (w : State S R) :
  (verifyUserRefreshToken refreshToken userId w).2 = w.
Proof.
  rewrite verifyUserRefreshToken_cases.
  repeat case_match; done.
Qed.


Lemma validateUser_throws email password (w w' : State S R) e :
  validateUser email password w = (Throw e, w') → e = credentials_not_valid.
Proof.
  rewrite validateUser_cases.
  repeat case_match; congruence.
Qed.




(** C2. [validateUser(email, password)] returns the user record exactly
    when the lookup by email returns that record and the comparator accepts
    the password against its stored hash. Whatever else happens (the lookup
    throws, it returns nothing, the email is unknown, the password is wrong,
    the comparator throws) the call throws the [UnauthorizedException] with the
    fixed message "Credentials are not valid.", so that any two failures
    throw the same exception. The state is never changed. *)
Theorem validateUser_spec (email password : string) (w : State S R) :
  (∀ user, validateUser email password w = (Return user, w)
           ↔ findOne email None (usersService w) = Return (Some user) ∧
             compareValueWithHash password (Some (UserEntity.password user))
               = Return true) ∧
  ((¬ ∃ user, findOne email None (usersService w) = Return (Some user) ∧
              compareValueWithHash password (Some (UserEntity.password user))
                = Return true) →
   validateUser email password w
     = (Throw (UnauthorizedException "Credentials are not valid."), w)) ∧
  (∀ e, findOne email None (usersService w) = Throw e →
        validateUser email password w
          = (Throw (UnauthorizedException "Credentials are not valid."), w)) ∧
  (UsersServiceLaws S →
   (∀ i u, stored i w = Some u → UserEntity.email u ≠ email) →
   validateUser email password w
     = (Throw (UnauthorizedException "Credentials are not valid."), w)) ∧
  (∀ email' password' (v w1 v1 : State S R) e e',
     validateUser email password w = (Throw e, v) →
     validateUser email' password' w1 = (Throw e', v1) →
     e = e' ∧ is_Unauthorized e = true).
Proof.
  assert (Hiff : ∀ user, validateUser email password w = (Return user, w)
           ↔ findOne email None (usersService w) = Return (Some user) ∧
             compareValueWithHash password (Some (UserEntity.password user))
               = Return true).
  { intros user. rewrite validateUser_cases. split.
    - destruct (findOne email None (usersService w)) as [[u|]|e] eqn:Hf;
        try discriminate.
      destruct (compareValueWithHash _ _) as [[|]|e] eqn:Hc; try discriminate.
      by intros [= ->].
    - intros [-> ->]. done. }
  assert (Hno : (¬ ∃ user,
             findOne email None (usersService w) = Return (Some user) ∧
             compareValueWithHash password (Some (UserEntity.password user))
               = Return true) →
     validateUser email password w = (Throw credentials_not_valid, w)).
  { intros Hn. rewrite validateUser_cases.
    destruct (findOne email None (usersService w)) as [[u|]|e] eqn:Hf; try done.
    destruct (compareValueWithHash _ _) as [[|]|e] eqn:Hc; try done.
    exfalso. apply Hn. by exists u. }
  split; [exact Hiff|]. split; [exact Hno|]. split; [|split].
  - intros e He. apply Hno. intros (user & Hf & _). congruence.
  - intros Hlaws Hunknown. apply Hno. intros (user & Hf & _).
    apply findOne_sound in Hf as [He (i & Hi)]. exact (Hunknown i user Hi He).
  - intros email' password' v w1 v1 e e' He He'.
    apply validateUser_throws in He, He'. by subst.
Qed.

(** C9. Neither verification writes: the state after [validateUser] or
    [verifyUserRefreshToken] is the state before it, whether the call
    returned or threw; in particular every stored row, with its password hash
    and its refresh-token hash, is the same. *)
Theorem verifications_read_only (w : State S R) :
  (∀ email password,
     (validateUser email password w).2 = w ∧
     table (usersService (validateUser email password w).2)
       = table (usersService w)) ∧
  (∀ refreshToken userId,
     (verifyUserRefreshToken refreshToken userId w).2 = w ∧
     table (usersService (verifyUserRefreshToken refreshToken userId w).2)
       = table (usersService w)).
Proof.
  split; intros.
  - by rewrite validateUser_state.
  - by rewrite verifyUserRefreshToken_state.
Qed.

End Verification.

(** ** [parseInt] reads back a decimal numeral *)

Section ParseInt.

Lemma parse_digits_acc (d : Decimal.uint) (acc : positive) :
  parse_digits 10 (NilEmpty.string_of_uint d) (Some (Z.pos acc))
    = Some (Z.pos (Pos.of_uint_acc d acc)).
Proof.
  revert acc.
  induction d as [|d IH|d IH|d IH|d IH|d IH|d IH|d IH|d IH|d IH|d IH];
    intros acc; [reflexivity|..];
    cbn [NilEmpty.string_of_uint parse_digits Pos.of_uint_acc];
    match goal with
    | |- context [digit_value 10 ?c] =>
        let v := eval vm_compute in (digit_value 10 c) in
        change (digit_value 10 c) with v
    end;
    cbn [default from_option id]; rewrite <- IH; do 2 f_equal; lia.
Qed.

Lemma parse_digits_zero (d : Decimal.uint) :
  parse_digits 10 (NilEmpty.string_of_uint d) (Some 0)
    = Some (Z.of_N (Pos.of_uint d)).
Proof.
  induction d as [|d IH|d IH|d IH|d IH|d IH|d IH|d IH|d IH|d IH|d IH];
    [reflexivity|exact IH|..];
    cbn [NilEmpty.string_of_uint parse_digits Pos.of_uint];
    match goal with
    | |- context [digit_value 10 ?c] =>
        let v := eval vm_compute in (digit_value 10 c) in
        change (digit_value 10 c) with v
    end;
    cbn [default from_option id Z.mul Z.add Z.of_N]; apply parse_digits_acc.
Qed.

Lemma parse_digits_start (d : Decimal.uint) :
  d ≠ Decimal.Nil →
  parse_digits 10 (NilEmpty.string_of_uint d) None
    = parse_digits 10 (NilEmpty.string_of_uint d) (Some 0).
Proof. destruct d; [done|..]; intros _; reflexivity. Qed.

Lemma parseInt_string_numeral (d : Decimal.uint) :
  d ≠ Decimal.Nil →
  parseInt_string (NilEmpty.string_of_uint d)
    = (λ v, to_Number (1 * v)) <$> parse_digits 10 (NilEmpty.string_of_uint d) None.
Proof.
  destruct d as [|d|d|d|d|d|d|d|d|d|d]; [done|..]; intros _; try reflexivity.
  destruct d; reflexivity.
Qed.

Lemma to_uint_not_Nil (n : N) : N.to_uint n ≠ Decimal.Nil.
Proof.
  destruct n as [|p]; [discriminate|]. apply DecimalPos.Unsigned.to_uint_nonnil.
Qed.

(** Integers below 2^53 are Numbers. *)
Lemma to_Number_small (z : Z) : Z.abs z < 2 ^ 53 → to_Number z = z.
Proof.
  intros Hz. unfold to_Number. by rewrite (proj2 (Z.ltb_lt _ _) Hz).
Qed.

(** Rounding does not bring a large integer below 2^53. *)
Lemma to_Number_large (z : Z) : 2 ^ 53 ≤ Z.abs z → 2 ^ 53 ≤ Z.abs (to_Number z).
Proof.
  intros Hz. unfold to_Number.
  rewrite (proj2 (Z.ltb_ge _ _) Hz).
  set (m := Z.abs z) in *.
  assert (Hm : 0 < m) by lia.
  pose proof (Z.log2_spec m Hm) as [Hlo Hhi].
  assert (Hk : 53 ≤ Z.log2 m) by (apply Z.log2_le_pow2; lia).
  set (e := Z.log2 m - 52) in *.
  assert (He : 0 < e) by lia.
  assert (Hpow : 2 ^ Z.log2 m = 2 ^ 52 * 2 ^ e).
  { unfold e. rewrite <- Z.pow_add_r by lia. f_equal. lia. }
  assert (H2e : 0 < 2 ^ e) by (apply Z.pow_pos_nonneg; lia).
  assert (Hq : 2 ^ 52 ≤ m / 2 ^ e) by (apply Z.div_le_lower_bound; lia).
  set (q := m / 2 ^ e) in *.
  match goal with |- context [if ?b then q + 1 else q] =>
    set (q' := if b then q + 1 else q) end.
  assert (Hq' : q ≤ q') by (unfold q'; case_match; lia).
  assert (Hsgn : Z.abs (Z.sgn z) = 1) by lia.
  rewrite Z.abs_mul, Hsgn, Z.mul_1_l, Z.abs_mul, (Z.abs_eq (2 ^ e)) by lia.
  rewrite Z.abs_eq by lia.
  assert (H2 : 2 ≤ 2 ^ e).
  { change 2 with (2 ^ 1) at 1. apply Z.pow_le_mono_r; lia. }
  change (2 ^ 53) with (2 ^ 52 * 2).
  assert (0 < 2 ^ 52) by done.
  nia.
Qed.

(** The sum of two Numbers is rounded before [setTime] clips it; the
    rounding never decides whether the date is valid. *)
Lemma TimeClip_to_Number (s : Z) : TimeClip (to_Number s) = TimeClip s.
Proof.
  destruct (Z_lt_le_dec (Z.abs s) (2 ^ 53)) as [Hs|Hs].
  - by rewrite to_Number_small.
  - pose proof (to_Number_large s Hs) as Hl. unfold TimeClip, max_time.
    rewrite !(proj2 (Z.leb_gt _ _)); [done|lia..].
Qed.

Lemma setTime_plus_Some (t n : Z) :
  setTime_plus t (Some n) = TimeClip (t + n).
Proof. cbn. apply TimeClip_to_Number. Qed.

(** Within the range of [Date] the new time value is the sum. *)
Lemma setTime_plus_in_range (t n : Z) :
  Z.abs (t + n) ≤ max_time → setTime_plus t (Some n) = Some (t + n).
Proof.
  intros Hr. rewrite setTime_plus_Some. unfold TimeClip.
  by rewrite (proj2 (Z.leb_le _ _) Hr).
Qed.

(** Out of it the date is invalid. *)
Lemma setTime_plus_out_of_range (t n : Z) :
  max_time < Z.abs (t + n) → setTime_plus t (Some n) = None.
Proof.
  intros Hr. rewrite setTime_plus_Some. unfold TimeClip.
  by rewrite (proj2 (Z.leb_gt _ _) Hr).
Qed.

(** A lifetime written as a decimal numeral is read back as the Number
    nearest to its value, the value itself below 2^53. *)
Lemma parseInt_decimal (n : N) :
  parseInt (Some (decimal n)) = Some (to_Number (Z.of_N n)).
Proof.
  unfold parseInt, ToString, decimal; cbn [default from_option id].
  rewrite parseInt_string_numeral, parse_digits_start, parse_digits_zero
    by apply to_uint_not_Nil.
  change (Pos.of_uint (N.to_uint n)) with (N.of_uint (N.to_uint n)).
  rewrite DecimalN.Unsigned.of_to. cbn. by destruct (Z.of_N n).
Qed.


(** An absent variable is read as [NaN]. *)
Lemma parseInt_undefined : parseInt None = None.
Proof. reflexivity. Qed.

End ParseInt.

(** ** Token generation *)

Section Generation.
Context {S R : Type} `{UsersService S} `{Runtime R}.

(** [generateTokens] step by step: two readings of the clock, then the two
    signatures; the first signature that throws ends the call. *)
Lemma generateTokens_cases (userId : string) (w : State S R) :
  generateTokens userId w =
    let '(t1, r1) := Date_now (runtime w) in
    let '(t2, r2) := Date_now r1 in
    match jwtService_sign (TokenPayload.mk userId)
            (access_options (process_env w)) r2 with
    | (Throw e, r3) => (Throw e, set_runtime r3 w)
    | (Return accessToken, r3) =>
        match jwtService_sign (TokenPayload.mk userId)
                (refresh_options (process_env w)) r3 with
        | (Throw e, r4) => (Throw e, set_runtime r4 w)
        | (Return refreshToken, r4) =>
            (Return (Tokens.mk
               (setTime_plus t1
                  (parseInt (process_env w !! "JWT_ACCESS_TOKEN_EXPIRATION_MS")))
               (setTime_plus t2
                  (parseInt (process_env w !! "JWT_REFRESH_TOKEN_EXPIRATION_MS")))
               accessToken refreshToken),
             set_runtime r4 w)
        end
    end.
Proof.
  unfold generateTokens, bind, new_Date, env, jwt_sign, ret,
    access_options, refresh_options.
  destruct (Date_now (runtime w)) as [t1 r1]. cbn.
  destruct (Date_now r1) as [t2 r2]. cbn.
  destruct (jwtService_sign _ _ r2) as [[accessToken|e] r3]; cbn; [|done].
  destruct (jwtService_sign _ _ r3) as [[refreshToken|e] r4]; done.
Qed.

(** Token generation touches the runtime only. *)
Lemma generateTokens_frame (userId : string) (w w' : State S R) c :
  generateTokens userId w = (c, w') →
  usersService w' = usersService w ∧ response w' = response w ∧
  process_env w' = process_env w.
Proof.
  rewrite generateTokens_cases.
  destruct (Date_now (runtime w)) as [t1 r1], (Date_now r1) as [t2 r2].
  destruct (jwtService_sign _ _ r2) as [[accessToken|e] r3];
    [destruct (jwtService_sign _ _ r3) as [[refreshToken|e] r4]|];
    by intros [= <- <-].
Qed.

(** The two expiry dates of a token generation that returns. *)
Lemma generateTokens_expiries (userId : string) (w w' : State S R) tokens t1 r1 t2 r2 :
  generateTokens userId w = (Return tokens, w') →
  Date_now (runtime w) = (t1, r1) → Date_now r1 = (t2, r2) →
  Tokens.expireAccessToken tokens
    = setTime_plus t1 (parseInt (process_env w !! "JWT_ACCESS_TOKEN_EXPIRATION_MS")) ∧
  Tokens.expireRefreshToken tokens
    = setTime_plus t2 (parseInt (process_env w !! "JWT_REFRESH_TOKEN_EXPIRATION_MS")).
Proof.
  rewrite generateTokens_cases. intros Hg H1 H2. rewrite H1, H2 in Hg.
  destruct (jwtService_sign _ _ r2) as [[accessToken|e] r3]; [|discriminate].
  destruct (jwtService_sign _ _ r3) as [[refreshToken|e] r4]; [|discriminate].
  by injection Hg as <- <-.
Qed.


End Generation.

(** ** Sessions: login, signup, logout *)

Section Sessions.
Context {S R : Type} `{UsersService S} `{Runtime R}.

(** [setCookies] step by step: hash, then store, then the two cookies, each
    of which is refused if its expiry date is invalid. *)
Lemma setCookies_cases userId accessToken refreshToken ea er (w : State S R) :
  setCookies userId accessToken refreshToken ea er w =
    match encrypt refreshToken (runtime w) with
    | (Throw e, r') => (Throw e, set_runtime r' w)
    | (Return hash, r') =>
        match update userId (UpdateUserDto.mk (Some hash)) (usersService w) with
        | (Throw e, s') => (Throw e, mkState s' (response w) r' (process_env w))
        | (Return _, s') =>
            match ea, er with
            | None, _ =>
                (Throw cookie_TypeError,
                 mkState s' (response w) r' (process_env w))
            | Some _, None =>
                (Throw cookie_TypeError,
                 mkState s'
                   (response w ++
                      [cookie "Authentication" accessToken
                         (CookieOptions.mk true true ea)])
                   r' (process_env w))
            | Some _, Some _ =>
                (Return tt,
                 mkState s'
                   (response w ++ session_cookies accessToken refreshToken ea er)
                   r' (process_env w))
            end
        end
    end.
Proof.
  unfold setCookies, bind, bcrypt_encrypt, usersService_update, response_cookie,
    session_cookies, ACCESS_TOKEN_COOKIE, REFRESH_TOKEN_COOKIE.
  destruct (encrypt refreshToken (runtime w)) as [[hash|e] r']; cbn; [|done].
  destruct (update userId _ (usersService w)) as [[u'|e] s']; cbn; [|done].
  destruct ea as [ta|]; cbn; [|done].
  destruct er as [tr|]; cbn; [|done].
  unfold set_response; cbn. by rewrite <- app_assoc.
Qed.

Lemma login_cases (user : UserEntity.t) (w : State S R) :
  login user w =
    match generateTokens (UserEntity.id user) w with
    | (Return tokens, w1) =>
        setCookies (UserEntity.id user)
          (Tokens.accessToken tokens) (Tokens.refreshToken tokens)
          (Tokens.expireAccessToken tokens) (Tokens.expireRefreshToken tokens) w1
    | (Throw e, w1) => (Throw e, w1)
    end.
Proof. reflexivity. Qed.

Lemma signup_cases (userData : CreateUserDto.t) (w : State S R) :
  signup userData w =
    match findOne (CreateUserDto.email userData) (Some false) (usersService w) with
    | Return (Some _) => (Throw (UnauthorizedException "User already exists."), w)
    | Return None => bind (usersService_create userData) login w
    | Throw e => (Throw e, w)
    end.
Proof.
  unfold signup, bind at 1, usersService_findOne.
  destruct (findOne _ _ _) as [[u|]|e]; reflexivity.
Qed.

Lemma signup_create_cases (userData : CreateUserDto.t) (w : State S R) :
  bind (usersService_create userData) login w =
    match create userData (usersService w) with
    | (Return newUser, s1) => login newUser (set_usersService s1 w)
    | (Throw e, s1) => (Throw e, set_usersService s1 w)
    end.
Proof.
  unfold bind, usersService_create.
  destruct (create userData (usersService w)) as [[newUser|e] s1]; reflexivity.
Qed.

Lemma clearCookies_cases (w : State S R) :
  clearCookies w =
    (Return tt,
     set_response (response w ++ [clearCookie "Refresh"; clearCookie "Authentication"]) w).
Proof.
  unfold clearCookies, bind, response_clearCookie, set_response,
    ACCESS_TOKEN_COOKIE, REFRESH_TOKEN_COOKIE; cbn.
  by rewrite <- app_assoc.
Qed.

Lemma logout_cases (user : UserEntity.t) (w : State S R) :
  logout user w =
    match update (UserEntity.id user) (UpdateUserDto.mk None) (usersService w) with
    | (Return _, s') =>
        (Return tt,
         mkState s'
           (response w ++ [clearCookie "Refresh"; clearCookie "Authentication"])
           (runtime w) (process_env w))
    | (Throw e, s') => (Throw e, set_usersService s' w)
    end.
Proof.
  unfold logout, bind, usersService_update.
  destruct (update _ _ (usersService w)) as [[u'|e] s']; [|done].
  by rewrite clearCookies_cases.
Qed.

(** What a returning [setCookies] has done. *)
Lemma setCookies_returns userId accessToken refreshToken ea er (w w' : State S R) :
  setCookies userId accessToken refreshToken ea er w = (Return tt, w') →
  ∃ hash r' u',
    encrypt refreshToken (runtime w) = (Return hash, r') ∧
    update userId (UpdateUserDto.mk (Some hash)) (usersService w)
      = (Return u', usersService w') ∧
    response w' = response w ++ session_cookies accessToken refreshToken ea er ∧
    runtime w' = r' ∧ process_env w' = process_env w.
Proof.
  rewrite setCookies_cases.
  destruct (encrypt refreshToken (runtime w)) as [[hash|e] r'] eqn:He;
    [|discriminate].
  destruct (update userId _ (usersService w)) as [[u'|e] s'] eqn:Hu;
    [|discriminate].
  destruct ea as [ta|]; [|discriminate]. destruct er as [tr|]; [|discriminate].
  intros [= <-]. exists hash, r', u'. done.
Qed.

(** [setCookies] returns when the hash is made, the store update returns
    and both expiry dates are valid. *)
Lemma setCookies_runs userId accessToken refreshToken ta tr (w : State S R)
    hash r' u' s' :
  encrypt refreshToken (runtime w) = (Return hash, r') →
  update userId (UpdateUserDto.mk (Some hash)) (usersService w) = (Return u', s') →
  setCookies userId accessToken refreshToken (Some ta) (Some tr) w
    = (Return tt,
       mkState s'
         (response w ++
            session_cookies accessToken refreshToken (Some ta) (Some tr))
         r' (process_env w)).
Proof. intros He Hu. by rewrite setCookies_cases, He, Hu. Qed.

(** A response that [setCookies] has changed shows that the store update
    had returned. *)
Lemma setCookies_wrote userId accessToken refreshToken ea er (w w' : State S R) c :
  setCookies userId accessToken refreshToken ea er w = (c, w') →
  response w' ≠ response w →
  ∃ hash u',
    encrypt refreshToken (runtime w) = (Return hash, runtime w') ∧
    update userId (UpdateUserDto.mk (Some hash)) (usersService w)
      = (Return u', usersService w').
Proof.
  rewrite setCookies_cases.
  destruct (encrypt refreshToken (runtime w)) as [[hash|e] r'] eqn:He;
    [|by intros [= _ <-]].
  destruct (update userId _ (usersService w)) as [[u'|e] s'] eqn:Hu;
    [|by intros [= _ <-]].
  intros Hc Hne. exists hash, u'.
  destruct ea as [ta|]; [destruct er as [tr|]|]; by injection Hc as _ <-.
Qed.

(** When the store update throws, so does [setCookies], with no cookie
    written. *)
Lemma setCookies_update_throws userId accessToken refreshToken ea er
    (w : State S R) hash r' e s' :
  encrypt refreshToken (runtime w) = (Return hash, r') →
  update userId (UpdateUserDto.mk (Some hash)) (usersService w) = (Throw e, s') →
  setCookies userId accessToken refreshToken ea er w
    = (Throw e, mkState s' (response w) r' (process_env w)).
Proof. intros He Hu. by rewrite setCookies_cases, He, Hu. Qed.


(** What a returning [login] has done. *)
Lemma login_returns (user : UserEntity.t) (w w' : State S R) :
  login user w = (Return tt, w') →
  ∃ tokens w1 hash u',
    generateTokens (UserEntity.id user) w = (Return tokens, w1) ∧
    encrypt (Tokens.refreshToken tokens) (runtime w1) = (Return hash, runtime w') ∧
    update (UserEntity.id user) (UpdateUserDto.mk (Some hash)) (usersService w)
      = (Return u', usersService w') ∧
    response w' = response w ++
      session_cookies (Tokens.accessToken tokens) (Tokens.refreshToken tokens)
        (Tokens.expireAccessToken tokens) (Tokens.expireRefreshToken tokens) ∧
    process_env w' = process_env w.
Proof.
  rewrite login_cases.
  destruct (generateTokens (UserEntity.id user) w) as [[tokens|e] w1] eqn:Hg;
    [|discriminate].
  intros (hash & r' & u' & He & Hu & Hr & <- & Hp)%setCookies_returns.
  apply generateTokens_frame in Hg as Hf. destruct Hf as (Hs & Hres & Henv).
  exists tokens, w1, hash, u'. rewrite <- Hs, <- Hres, <- Henv. done.
Qed.

(** A response that [login] has changed shows that the store update had
    returned. *)
Lemma login_wrote (user : UserEntity.t) (w w' : State S R) c :
  login user w = (c, w') →
  response w' ≠ response w →
  ∃ tokens w1 hash u',
    generateTokens (UserEntity.id user) w = (Return tokens, w1) ∧
    encrypt (Tokens.refreshToken tokens) (runtime w1) = (Return hash, runtime w') ∧
    update (UserEntity.id user) (UpdateUserDto.mk (Some hash)) (usersService w)
      = (Return u', usersService w').
Proof.
  rewrite login_cases.
  destruct (generateTokens (UserEntity.id user) w) as [[tokens|e] w1] eqn:Hg.
  - apply generateTokens_frame in Hg as Hf. destruct Hf as (Hs & Hres & _).
    intros Hc Hne. rewrite <- Hres in Hne.
    destruct (setCookies_wrote _ _ _ _ _ _ _ _ Hc Hne) as (hash & u' & He & Hu).
    exists tokens, w1, hash, u'. by rewrite <- Hs.
  - apply generateTokens_frame in Hg as (_ & Hres & _).
    intros [= _ <-] Hne. done.
Qed.


End Sessions.

(** ** What the operations do to the store *)

Section Store.
Context {S R : Type} `{UsersService S} `{Runtime R} `{!UsersServiceLaws S}.

Lemma setCookies_table userId accessToken refreshToken ea er (w w' : State S R) c :
  setCookies userId accessToken refreshToken ea er w = (c, w') →
  table (usersService w') = table (usersService w) ∨
  rewrites userId is_Some (table (usersService w)) (table (usersService w')).
Proof.
  rewrite setCookies_cases.
  destruct (encrypt refreshToken (runtime w)) as [[hash|e1] r'].
  - destruct (update userId _ (usersService w)) as [[u'|e2] s'] eqn:Hu.
    + intros Hc. right.
      apply update_ok in Hu as (u & Hl & -> & Ht).
      exists (Some hash), u.
      destruct ea as [ta|]; [destruct er as [tr|]|];
        by injection Hc as _ <-.
    + intros [= _ <-]. left. by apply update_fail in Hu.
  - intros [= _ <-]. by left.
Qed.

Lemma login_table (user : UserEntity.t) (w w' : State S R) c :
  login user w = (c, w') →
  table (usersService w') = table (usersService w) ∨
  rewrites (UserEntity.id user) is_Some
    (table (usersService w)) (table (usersService w')).
Proof.
  rewrite login_cases.
  destruct (generateTokens (UserEntity.id user) w) as [[tokens|e1] w1] eqn:Hg;
    apply generateTokens_frame in Hg as (Hs & _ & _).
  - intros Hc%setCookies_table. by rewrite Hs in Hc.
  - intros [= <- <-]. left. by rewrite Hs.
Qed.

Lemma logout_table (user : UserEntity.t) (w w' : State S R) c :
  logout user w = (c, w') →
  table (usersService w') = table (usersService w) ∨
  (c = Return tt ∧
   rewrites (UserEntity.id user) (λ v, v = None)
     (table (usersService w)) (table (usersService w'))).
Proof.
  rewrite logout_cases.
  destruct (update _ _ (usersService w)) as [[u'|e] s'] eqn:Hu;
    intros [= <- <-]; cbn.
  - right. split; [done|].
    apply update_ok in Hu as (u & Hl & -> & Ht). exists None, u. done.
  - left. by apply update_fail in Hu.
Qed.

(** [signup] leaves the rows alone, or adds one row under an id that was
    free, and then possibly rewrites that new row. *)
Lemma signup_table (userData : CreateUserDto.t) (w w' : State S R) c :
  signup userData w = (c, w') →
  table (usersService w') = table (usersService w) ∨
  ∃ newUser,
    table (usersService w) !! UserEntity.id newUser = None ∧
    UserEntity.email newUser = CreateUserDto.email userData ∧
    let t1 := <[UserEntity.id newUser := newUser]> (table (usersService w)) in
    table (usersService w') = t1 ∨
    rewrites (UserEntity.id newUser) is_Some t1 (table (usersService w')).
Proof.
  rewrite signup_cases.
  destruct (findOne _ _ _) as [[u|]|e]; try (intros [= <- <-]; by left).
  rewrite signup_create_cases.
  destruct (create userData (usersService w)) as [[newUser|e] s1] eqn:Hc.
  - apply create_ok in Hc as (Hfree & Hemail & Ht).
    intros Hl%login_table. cbn in Hl. rewrite Ht in Hl.
    right. exists newUser. done.
  - intros [= <- <-]. left. by apply create_fail in Hc.
Qed.

(** Rewriting the row of [i] leaves every other row as it was. *)
Lemma rewrites_other i P (t t' : gmap string UserEntity.t) j :
  rewrites i P t t' → j ≠ i → t' !! j = t !! j.
Proof. intros (v & u & _ & _ & ->) Hne. by rewrite lookup_insert_ne. Qed.

Lemma rewrites_same i P (t t' : gmap string UserEntity.t) :
  rewrites i P t t' →
  ∃ v u, P v ∧ t !! i = Some u ∧ t' !! i = Some (with_refreshToken v u).
Proof.
  intros (v & u & HP & Hl & ->). exists v, u. by rewrite lookup_insert_eq.
Qed.

End Store.

(** ** Login and the order of its effects *)

Section Login.
Context {S R : Type} `{UsersService S} `{Runtime R}.


Lemma signup_returns (userData : CreateUserDto.t) (w w' : State S R) :
  signup userData w = (Return tt, w') →
  findOne (CreateUserDto.email userData) (Some false) (usersService w)
    = Return None ∧
  ∃ newUser s1,
    create userData (usersService w) = (Return newUser, s1) ∧
    login newUser (set_usersService s1 w) = (Return tt, w').
Proof.
  rewrite signup_cases.
  destruct (findOne _ _ _) as [[u|]|e]; try discriminate.
  rewrite signup_create_cases.
  destruct (create userData (usersService w)) as [[newUser|e] s1];
    [|discriminate].
  intros Hl. split; [done|]. by exists newUser, s1.
Qed.

(** A response that [signup] has changed shows that the user had been
    created and that the store update had returned. *)
Lemma signup_wrote (userData : CreateUserDto.t) (w w' : State S R) c :
  signup userData w = (c, w') →
  response w' ≠ response w →
  ∃ newUser s1 tokens w1 hash u',
    findOne (CreateUserDto.email userData) (Some false) (usersService w)
      = Return None ∧
    create userData (usersService w) = (Return newUser, s1) ∧
    generateTokens (UserEntity.id newUser) (set_usersService s1 w)
      = (Return tokens, w1) ∧
    encrypt (Tokens.refreshToken tokens) (runtime w1) = (Return hash, runtime w') ∧
    update (UserEntity.id newUser) (UpdateUserDto.mk (Some hash)) s1
      = (Return u', usersService w').
Proof.
  rewrite signup_cases.
  destruct (findOne _ _ _) as [[u|]|e1] eqn:Hf; try by intros [= _ <-].
  rewrite signup_create_cases.
  destruct (create userData (usersService w)) as [[newUser|e1] s1] eqn:Hc.
  - intros Hl Hne.
    destruct (login_wrote _ _ _ _ Hl Hne) as (tokens & w1 & hash & u' & ? & ? & ?).
    by exists newUser, s1, tokens, w1, hash, u'.
  - by intros [= _ <-].
Qed.

(** C10. In [login] and in [signup] the hash of the refresh token is
    written to the store before any cookie is written to the response: a
    response that the call has changed shows that the store update had
    returned before (so a call that ends before that, in the token generation
    or in the hash, has written no cookie), and when the store update throws,
    the call throws that same exception and no cookie has been added. *)
Theorem store_before_cookies :
  (∀ (user : UserEntity.t) (w w' : State S R) c,
     login user w = (c, w') →
     response w' ≠ response w →
     ∃ tokens w1 hash u',
       generateTokens (UserEntity.id user) w = (Return tokens, w1) ∧
       encrypt (Tokens.refreshToken tokens) (runtime w1)
         = (Return hash, runtime w') ∧
       update (UserEntity.id user) (UpdateUserDto.mk (Some hash)) (usersService w)
         = (Return u', usersService w')) ∧
  (∀ (user : UserEntity.t) (w w1 : State S R) tokens hash r' e s',
     generateTokens (UserEntity.id user) w = (Return tokens, w1) →
     encrypt (Tokens.refreshToken tokens) (runtime w1) = (Return hash, r') →
     update (UserEntity.id user) (UpdateUserDto.mk (Some hash)) (usersService w)
       = (Throw e, s') →
     ∃ w', login user w = (Throw e, w') ∧ response w' = response w) ∧
  (∀ (userData : CreateUserDto.t) (w w' : State S R) c,
     signup userData w = (c, w') →
     response w' ≠ response w →
     ∃ newUser s1 tokens w1 hash u',
       create userData (usersService w) = (Return newUser, s1) ∧
       generateTokens (UserEntity.id newUser) (set_usersService s1 w)
         = (Return tokens, w1) ∧
       encrypt (Tokens.refreshToken tokens) (runtime w1)
         = (Return hash, runtime w') ∧
       update (UserEntity.id newUser) (UpdateUserDto.mk (Some hash)) s1
         = (Return u', usersService w')) ∧
  (∀ (userData : CreateUserDto.t) (w w1 : State S R) newUser s1 tokens hash r' e s',
     findOne (CreateUserDto.email userData) (Some false) (usersService w)
       = Return None →
     create userData (usersService w) = (Return newUser, s1) →
     generateTokens (UserEntity.id newUser) (set_usersService s1 w)
       = (Return tokens, w1) →
     encrypt (Tokens.refreshToken tokens) (runtime w1) = (Return hash, r') →
     update (UserEntity.id newUser) (UpdateUserDto.mk (Some hash)) s1
       = (Throw e, s') →
     ∃ w', signup userData w = (Throw e, w') ∧ response w' = response w).
Proof.
  assert (Hfail : ∀ (user : UserEntity.t) (w w1 : State S R) tokens hash r' e s',
     generateTokens (UserEntity.id user) w = (Return tokens, w1) →
     encrypt (Tokens.refreshToken tokens) (runtime w1) = (Return hash, r') →
     update (UserEntity.id user) (UpdateUserDto.mk (Some hash)) (usersService w)
       = (Throw e, s') →
     ∃ w', login user w = (Throw e, w') ∧ response w' = response w).
  { intros user w w1 tokens hash r' e s' Hg He Hu.
    rewrite login_cases, Hg.
    apply generateTokens_frame in Hg as (Hs & Hres & _).
    rewrite <- Hs in Hu.
    rewrite (setCookies_update_throws _ _ _ _ _ _ _ _ _ _ He Hu).
    eexists. split; [done|]. done. }
  split; [|split; [exact Hfail|split]].
  - intros user w w' c Hl Hne. by eapply login_wrote.
  - intros userData w w' c Hs Hne.
    destruct (signup_wrote _ _ _ _ Hs Hne)
      as (newUser & s1 & tokens & w1 & hash & u' & _ & ? & ? & ? & ?).
    by exists newUser, s1, tokens, w1, hash, u'.
  - intros userData w w1 newUser s1 tokens hash r' e s' Hf Hc Hg He Hu.
    rewrite signup_cases, Hf, signup_create_cases, Hc.
    destruct (Hfail newUser (set_usersService s1 w) w1 tokens hash r' e s')
      as (w' & Hl & Hr); try done.
    by exists w'.
Qed.

End Login.

(** ** Signup, logout and the stored hash *)

Section Lifecycle.
Context {S R : Type} `{UsersService S} `{Runtime R}.
Context `{!UsersServiceLaws S}.

(** C5. When the email of the signup data belongs to a stored user,
    [signup] throws the [UnauthorizedException] "User already exists." and
    leaves the state, hence every stored row, as it was: no row is created.
    The check is made with [findOne(email, false)], which answers [null]
    rather than throwing when no stored user has the email; [signup] then
    creates the user through the store and goes on exactly as [login] does for
    the created user. *)
Theorem signup_spec (userData : CreateUserDto.t) (w : State S R) :
  (∀ i u, stored i w = Some u →
          UserEntity.email u = CreateUserDto.email userData →
          signup userData w
            = (Throw (UnauthorizedException "User already exists."), w) ∧
          is_Unauthorized (UnauthorizedException "User already exists.") = true) ∧
  ((∀ i u, stored i w = Some u →
           UserEntity.email u ≠ CreateUserDto.email userData) →
   findOne (CreateUserDto.email userData) (Some false) (usersService w)
     = Return None ∧
   signup userData w = bind (usersService_create userData) login w ∧
   ∀ newUser s1,
     create userData (usersService w) = (Return newUser, s1) →
     signup userData w = login newUser (set_usersService s1 w) ∧
     stored (UserEntity.id newUser) w = None ∧
     stored (UserEntity.id newUser) (set_usersService s1 w) = Some newUser).
Proof.
  split.
  - intros i u Hs He. split; [|done].
    destruct (findOne_present _ (Some false) _ _ _ Hs He) as [u' Hf].
    by rewrite signup_cases, Hf.
  - intros Hnone.
    pose proof (findOne_absent _ _ Hnone) as Hf.
    split; [done|]. split; [by rewrite signup_cases, Hf|].
    intros newUser s1 Hc.
    rewrite signup_cases, Hf, signup_create_cases, Hc.
    apply create_ok in Hc as (Hfree & _ & Ht).
    split; [done|]. split; [done|].
    unfold stored; cbn. by rewrite Ht, lookup_insert_eq.
Qed.

(** What a returning [logout] has done. *)
Lemma logout_returns (user : UserEntity.t) (w w' : State S R) :
  logout user w = (Return tt, w') →
  ∃ row,
    stored (UserEntity.id user) w = Some row ∧
    table (usersService w')
      = <[UserEntity.id user := with_refreshToken None row]> (table (usersService w)) ∧
    response w' = response w ++ [clearCookie "Refresh"; clearCookie "Authentication"].
Proof.
  rewrite logout_cases.
  destruct (update _ _ (usersService w)) as [[u'|e] s'] eqn:Hu; [|discriminate].
  intros [= <-]. apply update_ok in Hu as (row & Hrow & -> & Ht).
  exists row. done.
Qed.

Lemma logged_out_rewrites i j P (w w' : State S R) :
  logged_out i w →
  rewrites j P (table (usersService w)) (table (usersService w')) →
  (j = i → ∀ v, P v → v = None) →
  logged_out i w'.
Proof.
  intros (u & Hu & Hr) Hw HP. unfold logged_out, stored in *.
  destruct (decide (j = i)) as [->|Hne].
  - destruct (rewrites_same _ _ _ _ Hw) as (v & u0 & Hv & Hl & ->).
    rewrite (HP eq_refl v Hv). eexists. split; [done|]. done.
  - rewrite (rewrites_other _ _ _ _ i Hw) by done. by exists u.
Qed.

Lemma logged_out_same_table i (w w' : State S R) :
  logged_out i w → table (usersService w') = table (usersService w) →
  logged_out i w'.
Proof. unfold logged_out, stored. by intros ? ->. Qed.

(** No call other than a login of user [i] gives user [i] a hash. *)
Lemma logged_out_perform i (c : Call) (w : State S R) :
  is_login_of i c = false → logged_out i w → logged_out i (perform c w).
Proof.
  intros Hc Hout.
  assert (Hout0 : logged_out i (set_response [] w)) by done.
  destruct c as [user|userData|user|email password|refreshToken userId];
    cbn [perform].
  - cbn in Hc. apply bool_decide_eq_false in Hc.
    destruct (login user (set_response [] w)) as [c w'] eqn:Hl.
    apply login_table in Hl as [Ht|Hw]; cbn [snd].
    + by eapply logged_out_same_table.
    + eapply logged_out_rewrites; [exact Hout0|exact Hw|done].
  - destruct (signup userData (set_response [] w)) as [c w'] eqn:Hs.
    apply signup_table in Hs as [Ht|(newUser & Hfree & _ & [Ht|Hw])];
      cbn [snd].
    + by eapply logged_out_same_table.
    + destruct Hout0 as (u & Hu & Hr). exists u. split; [|done].
      unfold stored in *. rewrite Ht, lookup_insert_ne; [done|]. congruence.
    + destruct Hout0 as (u & Hu & Hr).
      assert (UserEntity.id newUser ≠ i) by (unfold stored in Hu; congruence).
      exists u. split; [|done]. unfold stored in *.
      rewrite (rewrites_other _ _ _ _ i Hw) by done.
      by rewrite lookup_insert_ne.
  - destruct (logout user (set_response [] w)) as [c w'] eqn:Hl.
    apply logout_table in Hl as [Ht|[_ Hw]]; cbn [snd].
    + by eapply logged_out_same_table.
    + eapply logged_out_rewrites; [exact Hout0|exact Hw|done].
  - by rewrite validateUser_state.
  - by rewrite verifyUserRefreshToken_state.
Qed.

Lemma logged_out_run i (cs : list Call) (w : State S R) :
  Forall (λ c, is_login_of i c = false) cs →
  logged_out i w → logged_out i (run cs w).
Proof.
  intros Hcs. revert w.
  induction Hcs as [|c cs Hc _ IH]; intros w Hout; [done|].
  cbn. apply IH. by apply logged_out_perform.
Qed.

Lemma logged_out_refuses `{!HashLaws R} i (w : State S R) refreshToken :
  logged_out i w →
  verifyUserRefreshToken refreshToken i w
    = (Throw (UnauthorizedException "Refresh token is not valid."), w).
Proof.
  intros (u & Hu & Hr). rewrite verifyUserRefreshToken_cases.
  apply findOneById_table in Hu. rewrite Hu, Hr.
  pose proof (compare_null refreshToken).
  by destruct (compareValueWithHash refreshToken None) as [[|]|e].
Qed.

(** C6. [logout(user, response)] returns when the store update returns
    (and throws what the update throws). A [logout] that returns has set the
    stored refresh-token hash of [user.id] to [null] and has asked the response to
    clear the cookie "Refresh" and then the cookie "Authentication", whatever
    the response held before: clearing never looks at the response and never
    throws, and a client that has received the response holds neither cookie.
    From then on [verifyUserRefreshToken] refuses every token presented for
    that user, after any sequence of calls of the service that contains no
    login of that user (a signup only ever writes the row it has just
    created); a login of that user that returns stores a hash again, and the
    token it issued is accepted. *)
Theorem logout_spec `{!HashLaws R} (user : UserEntity.t) (w : State S R) :
  (∀ u' s',
     update (UserEntity.id user) (UpdateUserDto.mk None) (usersService w)
       = (Return u', s') →
     ∃ w', logout user w = (Return tt, w')) ∧
  (∀ e s',
     update (UserEntity.id user) (UpdateUserDto.mk None) (usersService w)
       = (Throw e, s') →
     logout user w = (Throw e, set_usersService s' w)) ∧
  ∀ w', logout user w = (Return tt, w') →
  (∃ row, stored (UserEntity.id user) w = Some row ∧
          stored (UserEntity.id user) w'
            = Some (UserEntity.mk (UserEntity.id row) (UserEntity.username row)
                      (UserEntity.email row) (UserEntity.password row) None)) ∧
  response w' = response w ++ [clearCookie "Refresh"; clearCookie "Authentication"] ∧
  (∀ v : State S R,
     clearCookies v
       = (Return tt,
          set_response
            (response v ++ [clearCookie "Refresh"; clearCookie "Authentication"]) v)) ∧
  (∀ jar, cookieJar jar (response w') !! "Refresh"%string = None ∧
          cookieJar jar (response w') !! "Authentication"%string = None) ∧
  (∀ cs refreshToken,
     Forall (λ c, is_login_of (UserEntity.id user) c = false) cs →
     verifyUserRefreshToken refreshToken (UserEntity.id user) (run cs w')
       = (Throw (UnauthorizedException "Refresh token is not valid."), run cs w')) ∧
  (∀ cs (v v' : State S R) (user' : UserEntity.t),
     UserEntity.id user' = UserEntity.id user →
     v = run cs w' →
     login user' v = (Return tt, v') →
     ∃ refreshToken o row,
       last (response v') = Some (cookie "Refresh" refreshToken o) ∧
       verifyUserRefreshToken refreshToken (UserEntity.id user) v'
         = (Return row, v')).
Proof.
  split; [|split].
  { intros u' s' Hu. rewrite logout_cases, Hu. by eexists. }
  { intros e s' Hu. by rewrite logout_cases, Hu. }
  intros w' (row & Hrow & Ht & Hresp)%logout_returns.
  assert (Hout : logged_out (UserEntity.id user) w').
  { eexists. unfold stored. rewrite Ht, lookup_insert_eq. done. }
  split; [|split; [done|split; [exact clearCookies_cases|split; [|split]]]].
  - exists row. split; [done|]. unfold stored.
    by rewrite Ht, lookup_insert_eq.
  - intros jar. rewrite Hresp. unfold cookieJar.
    rewrite foldl_app. cbn.
    split.
    + rewrite lookup_delete_ne by done. by rewrite lookup_delete_eq.
    + by rewrite lookup_delete_eq.
  - intros cs refreshToken Hcs.
    apply logged_out_refuses. by apply logged_out_run.
  - intros cs v v' user' Hid -> Hlogin.
    apply login_returns in Hlogin as (tokens & w1 & hash & u' & Hg & He & Hu & Hr & _).
    apply update_ok in Hu as (row' & Hrow' & -> & Ht').
    exists (Tokens.refreshToken tokens),
      (CookieOptions.mk true true (Tokens.expireRefreshToken tokens)).
    eexists. split.
    + rewrite Hr. unfold session_cookies. by rewrite last_app.
    + rewrite verifyUserRefreshToken_cases.
      assert (Hs : findOneById (UserEntity.id user) (usersService v')
                   = Return (Some (UpdateUserDto.apply
                                     (UpdateUserDto.mk (Some hash)) row'))).
      { apply findOneById_table. rewrite Ht', <- Hid. apply lookup_insert_eq. }
      rewrite Hs. cbn.
      by rewrite (compare_encrypt _ _ _ _ He).
Qed.

End Lifecycle.

(** ** One stored hash per user *)

Section OneHash.
Context {S R : Type} `{UsersService S} `{Runtime R}.
Context `{!UsersServiceLaws S} `{!HashLaws R}.

Lemma active_hashes_stored i j (w w' : State S R) :
  stored i w' = stored j w → active_hashes i w' = active_hashes j w.
Proof. unfold active_hashes. by intros ->. Qed.

Lemma active_hashes_at_most_one i (w : State S R) :
  (List.length (active_hashes i w) ≤ 1)%nat.
Proof.
  unfold active_hashes.
  destruct (stored i w) as [u|]; [|cbn; lia].
  destruct (UserEntity.refreshToken u); cbn; lia.
Qed.

(** What a returning [login] leaves in the store and in the response. *)
Lemma login_overwrites (user : UserEntity.t) (w w' : State S R) :
  login user w = (Return tt, w') →
  ∃ hash refreshToken o,
    active_hashes (UserEntity.id user) w' = [hash] ∧
    last (response w') = Some (cookie "Refresh" refreshToken o) ∧
    compareValueWithHash refreshToken (Some hash) = Return true ∧
    ∀ j, j ≠ UserEntity.id user → stored j w' = stored j w.
Proof.
  intros (tokens & w1 & hash & u' & _ & He & Hu & Hr & _)%login_returns.
  apply update_ok in Hu as (row & Hrow & -> & Ht).
  exists hash, (Tokens.refreshToken tokens),
    (CookieOptions.mk true true (Tokens.expireRefreshToken tokens)).
  split; [by unfold active_hashes, stored; rewrite Ht, lookup_insert_eq|].
  split; [by rewrite Hr; unfold session_cookies; rewrite last_app|].
  split; [by eapply compare_encrypt|].
  intros j Hj. unfold stored. by rewrite Ht, lookup_insert_ne.
Qed.

(** Once the store update of a [login] has returned, the row of the user
    holds the new hash and the other rows are as before, whatever becomes of
    the cookies; the login returns when both expiry dates are valid. *)
Lemma login_stored (user : UserEntity.t) (w w1 : State S R) tokens hash r' u' s' :
  generateTokens (UserEntity.id user) w = (Return tokens, w1) →
  encrypt (Tokens.refreshToken tokens) (runtime w1) = (Return hash, r') →
  update (UserEntity.id user) (UpdateUserDto.mk (Some hash)) (usersService w)
    = (Return u', s') →
  active_hashes (UserEntity.id user) (login user w).2 = [hash] ∧
  (∀ j, j ≠ UserEntity.id user → stored j (login user w).2 = stored j w) ∧
  (is_Some (Tokens.expireAccessToken tokens) →
   is_Some (Tokens.expireRefreshToken tokens) →
   (login user w).1 = Return tt).
Proof.
  intros Hg He Hu. rewrite login_cases, Hg.
  apply generateTokens_frame in Hg as (Hs & _ & _).
  rewrite setCookies_cases, He, Hs, Hu.
  apply update_ok in Hu as (row & Hrow & -> & Ht).
  assert (Hrows : ∀ v : State S R,
            usersService v = s' →
            active_hashes (UserEntity.id user) v = [hash] ∧
            ∀ j, j ≠ UserEntity.id user → stored j v = stored j w).
  { intros v Hv. unfold active_hashes, stored. rewrite Hv, Ht. split.
    - by rewrite lookup_insert_eq.
    - intros j Hj. by rewrite lookup_insert_ne. }
  destruct (Tokens.expireAccessToken tokens) as [ta|];
    [destruct (Tokens.expireRefreshToken tokens) as [tr|]|]; cbn [fst snd];
    (destruct (Hrows (mkState s' (response w1) r' (process_env w1)) eq_refl)
       as [Ha Ho]
     || destruct (Hrows (mkState s'
                           (response w1 ++
                              [cookie "Authentication" (Tokens.accessToken tokens)
                                 (CookieOptions.mk true true (Some ta))])
                           r' (process_env w1)) eq_refl) as [Ha Ho]
     || destruct (Hrows (mkState s'
                           (response w1 ++
                              session_cookies (Tokens.accessToken tokens)
                                (Tokens.refreshToken tokens) (Some ta) (Some tr))
                           r' (process_env w1)) eq_refl) as [Ha Ho]);
    (split; [exact Ha|split; [exact Ho|]]); try done;
    by intros ? ?; repeat match goal with H : is_Some None |- _ => destruct H end.
Qed.

(** What a throwing [login] may have left in the store. *)
Lemma login_throws_stored (user : UserEntity.t) (w w' : State S R) e :
  login user w = (Throw e, w') →
  (table (usersService w') = table (usersService w) ∧
   response w' = response w) ∨
  ∃ tokens w1 hash u',
    generateTokens (UserEntity.id user) w = (Return tokens, w1) ∧
    encrypt (Tokens.refreshToken tokens) (runtime w1) = (Return hash, runtime w') ∧
    update (UserEntity.id user) (UpdateUserDto.mk (Some hash)) (usersService w)
      = (Return u', usersService w') ∧
    (Tokens.expireAccessToken tokens = None ∨
     Tokens.expireRefreshToken tokens = None) ∧
    e = cookie_TypeError.
Proof.
  rewrite login_cases.
  destruct (generateTokens (UserEntity.id user) w) as [[tokens|e1] w1] eqn:Hg;
    apply generateTokens_frame in Hg as Hf; destruct Hf as (Hs & Hres & _);
    [|intros [= _ <-]; left; by rewrite Hs].
  rewrite setCookies_cases.
  destruct (encrypt _ (runtime w1)) as [[hash|e1] r'] eqn:He;
    [|intros [= _ <-]; left; cbn; by rewrite Hs].
  destruct (update _ _ (usersService w1)) as [[u'|e1] s'] eqn:Hu.
  - rewrite Hs in Hu. intros Hc. right. exists tokens, w1, hash, u'.
    destruct (Tokens.expireAccessToken tokens) as [ta|];
      [destruct (Tokens.expireRefreshToken tokens) as [tr|]|];
      [discriminate Hc| |]; injection Hc as <- <-; cbn; auto 6.
  - intros [= _ <-]. left. cbn. apply update_fail in Hu. by rewrite Hu, Hs.
Qed.

(** C7. Every user has at most one stored refresh-token hash: the hash is
    the one nullable field [refreshToken] of the row of the user, in every
    state the service can reach by any sequence of its operations. Once the
    token pair of a [login] is generated, the refresh token hashed and the
    store update has returned, the hash stored for the user is the hash of the
    refresh token just issued, whatever was stored before and whatever becomes
    of the cookies, and the login returns when both expiry dates are valid;
    the same holds of a [signup] for the user it has created, who had no hash
    before. A [login] that returns has sent that token in the cookie
    "Refresh"; a [signup] that returns has done so for the user it created,
    whose id was free before; a [logout] that returns replaces the hash by
    [null]. Each of
    them leaves the hash of every other user as it was, and the verifications
    change nothing. A [logout] that throws has changed no stored hash; a
    [login] that throws has changed none, or it was refused a cookie for an
    invalid expiry date after it had stored the hash of the token it had
    generated. *)
Theorem one_stored_hash :
  (∀ cs (w : State S R) i, (List.length (active_hashes i (run cs w)) ≤ 1)%nat) ∧
  (∀ (user : UserEntity.t) (w w1 : State S R) tokens hash r' u' s',
     generateTokens (UserEntity.id user) w = (Return tokens, w1) →
     encrypt (Tokens.refreshToken tokens) (runtime w1) = (Return hash, r') →
     update (UserEntity.id user) (UpdateUserDto.mk (Some hash)) (usersService w)
       = (Return u', s') →
     active_hashes (UserEntity.id user) (login user w).2 = [hash] ∧
     compareValueWithHash (Tokens.refreshToken tokens) (Some hash) = Return true ∧
     (∀ j, j ≠ UserEntity.id user →
           active_hashes j (login user w).2 = active_hashes j w) ∧
     (is_Some (Tokens.expireAccessToken tokens) →
      is_Some (Tokens.expireRefreshToken tokens) →
      (login user w).1 = Return tt)) ∧
  (∀ (userData : CreateUserDto.t) (w w1 : State S R) newUser s1 tokens hash r' u' s',
     findOne (CreateUserDto.email userData) (Some false) (usersService w)
       = Return None →
     create userData (usersService w) = (Return newUser, s1) →
     generateTokens (UserEntity.id newUser) (set_usersService s1 w)
       = (Return tokens, w1) →
     encrypt (Tokens.refreshToken tokens) (runtime w1) = (Return hash, r') →
     update (UserEntity.id newUser) (UpdateUserDto.mk (Some hash)) s1
       = (Return u', s') →
     active_hashes (UserEntity.id newUser) w = [] ∧
     active_hashes (UserEntity.id newUser) (signup userData w).2 = [hash] ∧
     (∀ j, j ≠ UserEntity.id newUser →
           active_hashes j (signup userData w).2 = active_hashes j w) ∧
     (is_Some (Tokens.expireAccessToken tokens) →
      is_Some (Tokens.expireRefreshToken tokens) →
      (signup userData w).1 = Return tt)) ∧
  (∀ (user : UserEntity.t) (w w' : State S R),
     login user w = (Return tt, w') →
     ∃ hash refreshToken o,
       active_hashes (UserEntity.id user) w' = [hash] ∧
       last (response w') = Some (cookie "Refresh" refreshToken o) ∧
       compareValueWithHash refreshToken (Some hash) = Return true ∧
       ∀ j, j ≠ UserEntity.id user → active_hashes j w' = active_hashes j w) ∧
  (∀ (userData : CreateUserDto.t) (w w' : State S R),
     signup userData w = (Return tt, w') →
     ∃ newUser hash refreshToken o,
       stored (UserEntity.id newUser) w = None ∧
       UserEntity.email newUser = CreateUserDto.email userData ∧
       active_hashes (UserEntity.id newUser) w' = [hash] ∧
       last (response w') = Some (cookie "Refresh" refreshToken o) ∧
       compareValueWithHash refreshToken (Some hash) = Return true ∧
       ∀ j, j ≠ UserEntity.id newUser → active_hashes j w' = active_hashes j w) ∧
  (∀ (user : UserEntity.t) (w w' : State S R),
     logout user w = (Return tt, w') →
     active_hashes (UserEntity.id user) w' = [] ∧
     ∀ j, j ≠ UserEntity.id user → active_hashes j w' = active_hashes j w) ∧
  (∀ (w : State S R) j email password refreshToken userId,
     active_hashes j (validateUser email password w).2 = active_hashes j w ∧
     active_hashes j (verifyUserRefreshToken refreshToken userId w).2
       = active_hashes j w) ∧
  (∀ (user : UserEntity.t) (w w' : State S R) e,
     logout user w = (Throw e, w') →
     ∀ j, active_hashes j w' = active_hashes j w) ∧
  (∀ (user : UserEntity.t) (w w' : State S R) e,
     login user w = (Throw e, w') →
     (∀ j, active_hashes j w' = active_hashes j w) ∨
     ∃ tokens w1 hash,
       generateTokens (UserEntity.id user) w = (Return tokens, w1) ∧
       encrypt (Tokens.refreshToken tokens) (runtime w1)
         = (Return hash, runtime w') ∧
       (Tokens.expireAccessToken tokens = None ∨
        Tokens.expireRefreshToken tokens = None) ∧
       e = cookie_TypeError ∧
       active_hashes (UserEntity.id user) w' = [hash] ∧
       ∀ j, j ≠ UserEntity.id user → active_hashes j w' = active_hashes j w).
Proof.
  split; [intros; apply active_hashes_at_most_one|].
  split; [|split; [|split; [|split; [|split; [|split; [|split]]]]]].
  - intros user w w1 tokens hash r' u' s' Hg He Hu.
    destruct (login_stored _ _ _ _ _ _ _ _ Hg He Hu) as (Ha & Ho & Hr).
    split; [exact Ha|]. split; [by eapply compare_encrypt|].
    split; [|exact Hr].
    intros j Hj. by apply active_hashes_stored, Ho.
  - intros userData w w1 newUser s1 tokens hash r' u' s' Hf Hc Hg He Hu.
    rewrite signup_cases, Hf, signup_create_cases, Hc.
    destruct (login_stored newUser (set_usersService s1 w) _ _ _ _ _ _ Hg He Hu)
      as (Ha & Ho & Hr).
    apply create_ok in Hc as (Hfree & _ & Ht).
    split; [by unfold active_hashes, stored; rewrite Hfree|].
    split; [exact Ha|]. split; [|exact Hr].
    intros j Hj. apply active_hashes_stored. rewrite Ho by done.
    unfold stored; cbn. by rewrite Ht, lookup_insert_ne.
  - intros user w w' (hash & refreshToken & o & ? & ? & ? & Hother)%login_overwrites.
    exists hash, refreshToken, o. repeat (split; [done|]).
    intros j Hj. by apply active_hashes_stored, Hother.
  - intros userData w w' (_ & newUser & s1 & Hc & Hl)%signup_returns.
    apply login_overwrites in Hl
      as (hash & refreshToken & o & Ha & Hlast & Hcmp & Hother).
    apply create_ok in Hc as (Hfree & Hemail & Ht).
    exists newUser, hash, refreshToken, o. repeat (split; [done|]).
    intros j Hj. apply active_hashes_stored. rewrite Hother by done.
    unfold stored; cbn. by rewrite Ht, lookup_insert_ne.
  - intros user w w' (row & Hrow & Ht & _)%logout_returns.
    split; [by unfold active_hashes, stored; rewrite Ht, lookup_insert_eq|].
    intros j Hj. apply active_hashes_stored. unfold stored.
    by rewrite Ht, lookup_insert_ne.
  - intros w j email password refreshToken userId.
    by rewrite validateUser_state, verifyUserRefreshToken_state.
  - intros user w w' e Hl j. apply active_hashes_stored; unfold stored.
    by apply logout_table in Hl as [->|[[=] _]].
  - intros user w w' e Hl.
    apply login_throws_stored in Hl
      as [[Ht _]|(tokens & w1 & hash & u' & Hg & He & Hu & Hex & ->)].
    + left. intros j. apply active_hashes_stored. unfold stored. by rewrite Ht.
    + right. exists tokens, w1, hash. repeat (split; [done|]).
      apply update_ok in Hu as (row & Hrow & -> & Ht).
      split.
      * unfold active_hashes, stored. by rewrite Ht, lookup_insert_eq.
      * intros j Hj. apply active_hashes_stored. unfold stored.
        by rewrite Ht, lookup_insert_ne.
Qed.

End OneHash.

(** ** Start-up and the configuration *)

Section Startup.
Context {S R : Type} `{UsersService S} `{Runtime R}.
Context {App Doc Adapter : Type} `{Main.Nest App Doc Adapter}.









End Startup.

(** * The service on the store in memory *)

Import InMemory.

Lemma by_email_Some e (s : gmap string UserEntity.t) u :
  by_email e s = Some u → UserEntity.email u = e ∧ ∃ i, s !! i = Some u.
Proof.
  unfold by_email.
  destruct (List.find _ (map_to_list s)) as [[i u']|] eqn:Hf; [|done].
  intros [= <-]. apply find_some in Hf as [Hin He].
  apply bool_decide_eq_true in He. split; [done|].
  exists i. by apply elem_of_map_to_list, list_elem_of_In.
Qed.

Lemma by_email_None e (s : gmap string UserEntity.t) i u :
  by_email e s = None → s !! i = Some u → UserEntity.email u ≠ e.
Proof.
  unfold by_email.
  destruct (List.find _ (map_to_list s)) as [[i' u']|] eqn:Hf; [done|].
  intros _ Hs.
  apply elem_of_map_to_list, list_elem_of_In in Hs.
  apply (find_none _ _ Hf) in Hs. by apply bool_decide_eq_false in Hs.
Qed.

(** The store in memory keeps the contract of the user store. *)
#[export] Instance mem_store_laws : UsersServiceLaws (gmap string UserEntity.t).
Proof.
  split; cbn.
  - intros i s u. unfold mem_findOneById.
    destruct (s !! i); split; congruence.
  - intros e t s u. unfold mem_findOne.
    destruct (by_email e s) as [u'|] eqn:Hb.
    + intros [= <-]. by apply by_email_Some.
    + by destruct t as [[|]|].
  - intros e t s i u Hs He. unfold mem_findOne.
    destruct (by_email e s) as [u'|] eqn:Hb; [by exists u'|].
    by destruct (by_email_None _ _ _ _ Hb Hs).
  - intros e s Hnone. unfold mem_findOne.
    destruct (by_email e s) as [u'|] eqn:Hb; [|done].
    apply by_email_Some in Hb as [He [i Hi]]. by destruct (Hnone i u' Hi).
  - intros i p s u' s'. unfold mem_update.
    destruct (s !! i) as [u|]; [|done].
    intros [= <- <-]. by exists u.
  - intros i p s e s'. unfold mem_update.
    destruct (s !! i) as [u|]; [done|]. by intros [= _ <-].
  - intros d s u s'. unfold mem_create.
    destruct (s !! _) eqn:Hfree; [done|].
    intros [= <- <-]. done.
  - intros d s e s'. unfold mem_create.
    destruct (s !! _); [by intros [= _ <-]|done].
Qed.

Lemma toy_hash_not_plain (v : string) : toy_hash v ≠ v.
Proof.
  intros Heq. apply (f_equal String.length) in Heq.
  unfold toy_hash in Heq. cbv [String.app String.append] in Heq. cbn in Heq. lia.
Qed.

#[export] Instance toy_hash_laws : HashLaws Z.
Proof.
  split; cbn.
  - done.
  - intros v r h r' [= <- _]. by rewrite bool_decide_eq_true_2.
  - intros v r h r' [= <- _]. apply toy_hash_not_plain.
Qed.



(** The example framework validates the configuration. *)
#[export] Instance validating_nest_laws
  : Main.NestLaws NestApplication Main.OpenAPIConfig string.
Proof.
  split; cbn. intros process_env ->. by eexists.
Qed.

(** ** The theorems at work on the store in memory *)

Lemma world0_rows i u :
  stored i world0 = Some u → (i = "u1"%string ∧ u = alice) ∨ (i = "u2"%string ∧ u = bob).
Proof.
  unfold stored, world0; cbn.
  intros [[<- <-]|[_ Hs]]%lookup_insert_Some; [by left|].
  apply lookup_insert_Some in Hs as [[<- <-]|[_ Hs]]; [by right|].
  by rewrite lookup_empty in Hs.
Qed.


(** Alice with her password, with a wrong password, and an unknown email. *)
Lemma validateUser_spec_witness :
  validateUser "alice@example.com" "pw-alice" world0 = (Return alice, world0) ∧
  validateUser "alice@example.com" "guess" world0
    = (Throw (UnauthorizedException "Credentials are not valid."), world0) ∧
  validateUser "carol@example.com" "pw-carol" world0
    = (Throw (UnauthorizedException "Credentials are not valid."), world0).
Proof.
  split; [|split].
  - apply (proj1 (validateUser_spec "alice@example.com" "pw-alice" world0)).
    split; vm_compute; reflexivity.
  - apply (proj1 (proj2 (validateUser_spec "alice@example.com" "guess" world0))).
    intros (user & Hf & Hc).
    vm_compute in Hf. injection Hf as <-. vm_compute in Hc. discriminate Hc.
  - apply (proj1 (proj2 (proj2 (proj2
             (validateUser_spec "carol@example.com" "pw-carol" world0))))).
    + exact mem_store_laws.
    + intros i u [[_ ->]|[_ ->]]%world0_rows; discriminate.
Defined.




(** Signing up with alice's email, and with a new one. *)
Lemma signup_spec_witness :
  signup alice_again world0
    = (Throw (UnauthorizedException "User already exists."), world0) ∧
  signup carol_data world0 = bind (usersService_create carol_data) login world0.
Proof.
  split.
  - apply (proj1 (signup_spec alice_again world0) "u1"%string alice);
      vm_compute; reflexivity.
  - destruct (proj2 (signup_spec carol_data world0)) as (_ & Hs & _);
      [|exact Hs].
    intros i u [[_ ->]|[_ ->]]%world0_rows; discriminate.
Defined.

(** Alice logs out; her old token is refused after others have come and
    gone. *)
Lemma logout_spec_witness :
  logout alice world1 = (Return tt, world2) ∧
  response world2 = response world1 ++
    [clearCookie "Refresh"; clearCookie "Authentication"] ∧
  let later := run [Signup carol_data; Login bob; Logout bob] world2 in
  verifyUserRefreshToken alice_refresh "u1" later
    = (Throw (UnauthorizedException "Refresh token is not valid."), later).
Proof.
  assert (Hl : logout alice world1 = (Return tt, world2))
    by (vm_compute; reflexivity).
  split; [exact Hl|].
  destruct (logout_spec alice world1) as (_ & _ & Hspec).
  destruct (Hspec world2 Hl) as (_ & Hr & _ & _ & Hv & _).
  split; [exact Hr|].
  apply (Hv [Signup carol_data; Login bob; Logout bob]).
  repeat constructor.
Defined.

(** Alice logs in while her row holds the hash of an earlier token: the
    hash of the new token takes its place, and bob has none as before; after
    her logout she has none. *)
Lemma one_stored_hash_witness :
  active_hashes "u1" world_earlier = [toy_hash alice_earlier] ∧
  (login alice world_earlier).1 = Return tt ∧
  active_hashes "u1" (login alice world_earlier).2 = [toy_hash alice_refresh] ∧
  active_hashes "u2" (login alice world_earlier).2 = [] ∧
  (List.length (active_hashes "u1" (run [Login alice; Login alice] world0)) ≤ 1)%nat ∧
  active_hashes "u1" world2 = [].
Proof.
  pose proof (one_stored_hash (S := gmap string UserEntity.t) (R := Z))
    as (Hone & Hlogin & _ & _ & _ & Hout & _).
  split; [vm_compute; reflexivity|].
  destruct (Hlogin alice world_earlier
              (generateTokens "u1" world_earlier).2
              (Tokens.mk (Some 901000) (Some 604801001)
                 "jwt.u1.900000ms.s-access" alice_refresh)
              (toy_hash alice_refresh) 1002
              (with_refreshToken (Some (toy_hash alice_refresh)) alice)
              (<["u1" := with_refreshToken (Some (toy_hash alice_refresh)) alice]>
                 (<["u2" := bob]> ∅)))
    as (Hnew & _ & Hother & Hret); [vm_compute; reflexivity ..|].
  split; [apply Hret; by eexists|].
  split; [exact Hnew|].
  split; [rewrite (Hother "u2"%string) by discriminate; vm_compute; reflexivity|].
  split; [apply Hone|].
  apply (Hout alice world1 world2). vm_compute; reflexivity.
Defined.

(** A login for a user whose row is gone: the update throws, and so does
    the login, with no cookie written; and the cookies of alice's login show
    that her row had been updated. *)
Lemma store_before_cookies_witness :
  (∃ w', login ghost world0 = (Throw NotFound, w') ∧
         response w' = response world0) ∧
  ∃ hash u',
    update "u1" (UpdateUserDto.mk (Some hash)) (usersService world0)
      = (Return u', usersService world1).
Proof.
  pose proof (store_before_cookies (S := gmap string UserEntity.t) (R := Z))
    as (Hwrote & Hfail & _).
  split.
  - eapply (Hfail ghost world0); vm_compute; reflexivity.
  - destruct (Hwrote alice world0 world1 (Return tt))
      as (tokens & w1 & hash & u' & _ & _ & Hu);
      [vm_compute; reflexivity|vm_compute; discriminate|].
    exists hash, u'. exact Hu.
Defined.


(** * Further properties *)

(** ** What [parseInt] makes of a lifetime *)

Section LifetimeText.

Lemma append_String (c : ascii) (s r : string) :
  String c s +:+ r = String c (s +:+ r).
Proof. reflexivity. Qed.

Lemma parse_digits_stop (rest : string) (acc : option Z) :
  ends_numeral rest = true → parse_digits 10 rest acc = acc.
Proof.
  destruct rest as [|c r]; [done|]. cbn.
  by destruct (digit_value 10 c).
Qed.

Lemma parse_digits_append (d : Decimal.uint) (rest : string) (acc : option Z) :
  ends_numeral rest = true →
  parse_digits 10 (NilEmpty.string_of_uint d +:+ rest) acc
    = parse_digits 10 (NilEmpty.string_of_uint d) acc.
Proof.
  intros Hrest. revert acc.
  induction d as [|d IH|d IH|d IH|d IH|d IH|d IH|d IH|d IH|d IH|d IH];
    intros acc;
    [by apply parse_digits_stop|..];
    cbn [NilEmpty.string_of_uint]; rewrite append_String;
    cbn [parse_digits];
    match goal with
    | |- context [digit_value 10 ?c] =>
        let v := eval vm_compute in (digit_value 10 c) in
        change (digit_value 10 c) with v
    end;
    cbn beta iota; apply IH.
Qed.

Lemma parseInt_string_numeral_append (d : Decimal.uint) (rest : string) :
  d ≠ Decimal.Nil → ends_numeral rest = true →
  parseInt_string (NilEmpty.string_of_uint d +:+ rest)
    = (λ v, to_Number (1 * v))
        <$> parse_digits 10 (NilEmpty.string_of_uint d +:+ rest) None.
Proof.
  destruct d as [|d|d|d|d|d|d|d|d|d|d]; [done|..]; intros _ Hrest;
    try reflexivity.
  destruct d; try reflexivity.
  destruct rest as [|c r]; [reflexivity|].
  destruct c as [[] [] [] [] [] [] [] []]; try discriminate Hrest; reflexivity.
Qed.

(** A decimal numeral followed by a unit, a dot, a blank: [parseInt] reads
    the numeral and drops the rest. *)
Lemma parseInt_decimal_append (n : N) (rest : string) :
  ends_numeral rest = true →
  parseInt (Some (decimal n +:+ rest)) = Some (to_Number (Z.of_N n)).
Proof.
  intros Hrest. unfold parseInt, ToString, decimal; cbn [default from_option id].
  rewrite parseInt_string_numeral_append, parse_digits_append,
    parse_digits_start, parse_digits_zero by (done || apply to_uint_not_Nil).
  change (Pos.of_uint (N.to_uint n)) with (N.of_uint (N.to_uint n)).
  rewrite DecimalN.Unsigned.of_to. cbn. by destruct (Z.of_N n).
Qed.

(** A minus sign before the numeral is read as such. *)
Lemma parseInt_minus_decimal (n : N) :
  parseInt (Some ("-" +:+ decimal n)) = Some (to_Number (- Z.of_N n)).
Proof.
  unfold parseInt, ToString, decimal; cbn [default from_option id].
  assert (Hs : ∀ d, d ≠ Decimal.Nil →
            parseInt_string ("-" +:+ NilEmpty.string_of_uint d)
              = (λ v, to_Number (-1 * v))
                  <$> parse_digits 10 (NilEmpty.string_of_uint d) None).
  { intros d Hd. destruct d as [|d|d|d|d|d|d|d|d|d|d]; [done|..];
      try reflexivity.
    destruct d; reflexivity. }
  rewrite Hs, parse_digits_start, parse_digits_zero by apply to_uint_not_Nil.
  change (Pos.of_uint (N.to_uint n)) with (N.of_uint (N.to_uint n)).
  rewrite DecimalN.Unsigned.of_to. cbn. by destruct (Z.of_N n).
Qed.

(** A text that does not begin like a number is read as [NaN]. *)
Lemma parseInt_non_numeric (s : string) :
  starts_non_numeric s = true → parseInt (Some s) = None.
Proof.
  unfold parseInt, ToString; cbn [default from_option id].
  destruct s as [|c s']; [reflexivity|].
  destruct c as [[] [] [] [] [] [] [] []]; intros Hs;
    try discriminate Hs; reflexivity.
Qed.

End LifetimeText.

(** ** Lifetimes and expiry instants *)

Section Lifetimes.
Context {S R : Type} `{UsersService S} `{Runtime R}.

(** X1. The cookie expiry and the signer's lifetime are derived differently
    from the same variable. When a lifetime is written as a decimal numeral
    followed by text that [parseInt] does not read (a fraction, blanks, a
    unit), the signer is handed the whole text followed by "ms", while
    [generateTokens] computes the expiry date from the numeral alone, as a
    number of milliseconds: for a numeral below 2^53 and a sum within the
    range of [Date], the clock reading plus that number. *)
Theorem lifetime_suffix_dropped_for_cookie
    (userId : string) (w w' : State S R) tokens t1 r1 t2 r2 :
  generateTokens userId w = (Return tokens, w') →
  Date_now (runtime w) = (t1, r1) → Date_now r1 = (t2, r2) →
  (∀ (n : N) rest,
     ends_numeral rest = true →
     process_env w !! "JWT_ACCESS_TOKEN_EXPIRATION_MS" = Some (decimal n +:+ rest) →
     SignOptions.expiresIn (access_options (process_env w))
       = (decimal n +:+ rest) +:+ "ms" ∧
     Tokens.expireAccessToken tokens
       = setTime_plus t1 (parseInt (Some (decimal n))) ∧
     (Z.of_N n < 2 ^ 53 → Z.abs (t1 + Z.of_N n) ≤ max_time →
      Tokens.expireAccessToken tokens = Some (t1 + Z.of_N n))) ∧
  (∀ (n : N) rest,
     ends_numeral rest = true →
     process_env w !! "JWT_REFRESH_TOKEN_EXPIRATION_MS" = Some (decimal n +:+ rest) →
     SignOptions.expiresIn (refresh_options (process_env w))
       = (decimal n +:+ rest) +:+ "ms" ∧
     Tokens.expireRefreshToken tokens
       = setTime_plus t2 (parseInt (Some (decimal n))) ∧
     (Z.of_N n < 2 ^ 53 → Z.abs (t2 + Z.of_N n) ≤ max_time →
      Tokens.expireRefreshToken tokens = Some (t2 + Z.of_N n))).
Proof.
  intros Hg H1 H2.
  destruct (generateTokens_expiries _ _ _ _ _ _ _ _ Hg H1 H2) as [Ha Hr].
  split; intros n rest Hrest Henv.
  - rewrite Ha. unfold access_options. rewrite Henv.
    rewrite parseInt_decimal_append, parseInt_decimal by done.
    split; [done|]. split; [done|].
    intros Hn Hsum. rewrite to_Number_small by lia.
    by apply setTime_plus_in_range.
  - rewrite Hr. unfold refresh_options. rewrite Henv.
    rewrite parseInt_decimal_append, parseInt_decimal by done.
    split; [done|]. split; [done|].
    intros Hn Hsum. rewrite to_Number_small by lia.
    by apply setTime_plus_in_range.
Qed.

(** X2. [generateTokens] does not validate a lifetime. A lifetime with a
    minus sign (a numeral below 2^53, the difference within the range of
    [Date]) gives an expiry date that is not after the clock reading: cookies
    that are born expired. A lifetime that does not begin like a number (it
    is empty, or an ASCII character other than white space, a sign or a digit
    is at its head) gives an invalid expiry date, exactly as an absent one
    does. In each case the call returns whenever the
    signer signs. *)
Theorem lifetime_not_validated
    (userId : string) (w w' : State S R) tokens t1 r1 t2 r2 :
  generateTokens userId w = (Return tokens, w') →
  Date_now (runtime w) = (t1, r1) → Date_now r1 = (t2, r2) →
  (∀ n : N,
     process_env w !! "JWT_ACCESS_TOKEN_EXPIRATION_MS" = Some ("-" +:+ decimal n) →
     Z.of_N n < 2 ^ 53 → Z.abs (t1 - Z.of_N n) ≤ max_time →
     ∃ ea, Tokens.expireAccessToken tokens = Some ea ∧
           ea = t1 - Z.of_N n ∧ ea ≤ t1) ∧
  (∀ n : N,
     process_env w !! "JWT_REFRESH_TOKEN_EXPIRATION_MS" = Some ("-" +:+ decimal n) →
     Z.of_N n < 2 ^ 53 → Z.abs (t2 - Z.of_N n) ≤ max_time →
     ∃ er, Tokens.expireRefreshToken tokens = Some er ∧
           er = t2 - Z.of_N n ∧ er ≤ t2) ∧
  (∀ s, starts_non_numeric s = true →
        process_env w !! "JWT_ACCESS_TOKEN_EXPIRATION_MS" = Some s →
        Tokens.expireAccessToken tokens = None) ∧
  (∀ s, starts_non_numeric s = true →
        process_env w !! "JWT_REFRESH_TOKEN_EXPIRATION_MS" = Some s →
        Tokens.expireRefreshToken tokens = None) ∧
  (process_env w !! "JWT_ACCESS_TOKEN_EXPIRATION_MS" = None →
   Tokens.expireAccessToken tokens = None) ∧
  (process_env w !! "JWT_REFRESH_TOKEN_EXPIRATION_MS" = None →
   Tokens.expireRefreshToken tokens = None).
Proof.
  intros Hg H1 H2.
  destruct (generateTokens_expiries _ _ _ _ _ _ _ _ Hg H1 H2) as [Ha Hr].
  assert (Hneg : ∀ t (n : N),
            Z.of_N n < 2 ^ 53 → Z.abs (t - Z.of_N n) ≤ max_time →
            setTime_plus t (Some (to_Number (- Z.of_N n))) = Some (t - Z.of_N n)).
  { intros t n Hn Hsum. rewrite to_Number_small by lia.
    by apply setTime_plus_in_range. }
  split; [|split; [|split; [|split; [|split]]]].
  - intros n Henv Hn Hsum. rewrite Ha, Henv, parseInt_minus_decimal, Hneg by done.
    eexists. split; [done|]. lia.
  - intros n Henv Hn Hsum. rewrite Hr, Henv, parseInt_minus_decimal, Hneg by done.
    eexists. split; [done|]. lia.
  - intros s Hs Henv. by rewrite Ha, Henv, parseInt_non_numeric.
  - intros s Hs Henv. by rewrite Hr, Henv, parseInt_non_numeric.
  - intros Henv. by rewrite Ha, Henv.
  - intros Henv. by rewrite Hr, Henv.
Qed.

End Lifetimes.

(** ** Rows under a sequence of calls *)

Section Rows.
Context {S R : Type} `{UsersService S} `{Runtime R}.
Context `{!UsersServiceLaws S}.

Lemma same_credentials_refl (u : UserEntity.t) : same_credentials u u.
Proof. done. Qed.

Lemma same_credentials_with_refreshToken v (u u' : UserEntity.t) :
  same_credentials u u' → same_credentials u (with_refreshToken v u').
Proof. by intros (? & ? & ? & ?). Qed.

(** One call and the row of a stored user: the row stays, or the call is a
    login or a logout of that very user and only the hash has changed. *)
Lemma perform_row j (c : Call) (w : State S R) u :
  stored j w = Some u →
  stored j (perform c w) = Some u ∨
  ∃ v, stored j (perform c w) = Some (with_refreshToken v u) ∧
       (is_login_of j c = true ∨ is_logout_of j c = true).
Proof.
  intros Hu.
  assert (Hu0 : table (usersService (set_response [] w)) !! j = Some u) by done.
  destruct c as [user|userData|user|email password|refreshToken userId];
    cbn [perform]; unfold stored.
  - destruct (login user (set_response [] w)) as [c w'] eqn:Hl.
    cbn [snd]. apply login_table in Hl as [Ht|Hw]; [left; by rewrite Ht|].
    destruct (decide (UserEntity.id user = j)) as [<-|Hne].
    + right. destruct (rewrites_same _ _ _ _ Hw) as (v & u0 & _ & Hl & ->).
      exists v. split; [congruence|]. left. cbn. by rewrite bool_decide_eq_true_2.
    + left. by rewrite (rewrites_other _ _ _ _ j Hw).
  - destruct (signup userData (set_response [] w)) as [c w'] eqn:Hs.
    cbn [snd].
    apply signup_table in Hs as [Ht|(newUser & Hfree & _ & [Ht|Hw])];
      [left; by rewrite Ht|..].
    + left. rewrite Ht, lookup_insert_ne; [done|]. congruence.
    + left. assert (UserEntity.id newUser ≠ j) by congruence.
      rewrite (rewrites_other _ _ _ _ j Hw) by done.
      by rewrite lookup_insert_ne.
  - destruct (logout user (set_response [] w)) as [c w'] eqn:Hl.
    cbn [snd]. apply logout_table in Hl as [Ht|[_ Hw]]; [left; by rewrite Ht|].
    destruct (decide (UserEntity.id user = j)) as [<-|Hne].
    + right. destruct (rewrites_same _ _ _ _ Hw) as (v & u0 & _ & Hl & ->).
      exists v. split; [congruence|]. right. cbn. by rewrite bool_decide_eq_true_2.
    + left. by rewrite (rewrites_other _ _ _ _ j Hw).
  - left. by rewrite validateUser_state.
  - left. by rewrite verifyUserRefreshToken_state.
Qed.

(** One call that is not a signup creates no row. *)
Lemma perform_absent j (c : Call) (w : State S R) :
  is_signup c = false → stored j w = None → stored j (perform c w) = None.
Proof.
  intros Hc Hu.
  assert (Hu0 : table (usersService (set_response [] w)) !! j = None) by done.
  destruct c as [user|userData|user|email password|refreshToken userId];
    cbn [perform]; unfold stored; try discriminate Hc.
  - destruct (login user (set_response [] w)) as [c w'] eqn:Hl.
    cbn [snd]. apply login_table in Hl as [Ht|Hw]; [by rewrite Ht|].
    destruct (decide (UserEntity.id user = j)) as [<-|Hne].
    + destruct (rewrites_same _ _ _ _ Hw) as (v & u0 & _ & Hl & _). congruence.
    + by rewrite (rewrites_other _ _ _ _ j Hw).
  - destruct (logout user (set_response [] w)) as [c w'] eqn:Hl.
    cbn [snd]. apply logout_table in Hl as [Ht|[_ Hw]]; [by rewrite Ht|].
    destruct (decide (UserEntity.id user = j)) as [<-|Hne].
    + destruct (rewrites_same _ _ _ _ Hw) as (v & u0 & _ & Hl & _). congruence.
    + by rewrite (rewrites_other _ _ _ _ j Hw).
  - by rewrite validateUser_state.
  - by rewrite verifyUserRefreshToken_state.
Qed.

(** X3. A stored user's row is changed only by a login or a logout of that
    very user. After any sequence of calls of the service that contains
    neither (logins, logouts and signups of others, verifications of anyone),
    the row is the same, and [verifyUserRefreshToken] for that user ends as
    it would have ended before. *)
Theorem row_changed_only_by_its_user (cs : list Call) (w : State S R) j u :
  stored j w = Some u →
  Forall (λ c, is_login_of j c = false ∧ is_logout_of j c = false) cs →
  stored j (run cs w) = Some u ∧
  ∀ refreshToken,
    (verifyUserRefreshToken refreshToken j (run cs w)).1
      = (verifyUserRefreshToken refreshToken j w).1.
Proof.
  intros Hu Hcs.
  assert (Hrun : stored j (run cs w) = Some u).
  { revert w Hu. induction Hcs as [|c cs [Hlogin Hlogout] _ IH]; intros w Hu;
      [done|].
    cbn. apply IH.
    destruct (perform_row j c w u Hu) as [Hsame|(v & _ & [Hc|Hc])];
      [done|congruence..]. }
  split; [done|]. intros refreshToken.
  rewrite !verifyUserRefreshToken_cases.
  apply findOneById_table in Hu, Hrun. rewrite Hu, Hrun.
  by destruct (compareValueWithHash _ _) as [[|]|e].
Qed.

(** X4. The service never deletes a user and never changes an id, a
    username, an email or a password: after any sequence of its calls a
    stored user is still stored, with the same credentials. And only [signup]
    creates users: after a sequence without signup, an id that was free is
    still free. *)
Theorem users_and_credentials_kept (cs : list Call) (w : State S R) j :
  (∀ u, stored j w = Some u →
        ∃ u', stored j (run cs w) = Some u' ∧ same_credentials u u') ∧
  (Forall (λ c, is_signup c = false) cs →
   stored j w = None → stored j (run cs w) = None).
Proof.
  split.
  - revert w. induction cs as [|c cs IH]; intros w u Hu; [by exists u|].
    cbn. destruct (perform_row j c w u Hu) as [Hsame|(v & Hv & _)].
    + by apply IH.
    + destruct (IH _ _ Hv) as (u' & Hu' & Hc). exists u'. split; [done|].
      destruct Hc as (? & ? & ? & ?). by repeat split.
  - intros Hcs. revert w. induction Hcs as [|c cs Hc _ IH]; intros w Hu; [done|].
    cbn. apply IH. by apply perform_absent.
Qed.

End Rows.

(** ** Round trips and failures of the session operations *)

Section RoundTrips.
Context {S R : Type} `{UsersService S} `{Runtime R}.
Context `{!UsersServiceLaws S}.

(** A returning [login], with the row it found and the hash it wrote. *)
Lemma login_row (user : UserEntity.t) (w w' : State S R) :
  login user w = (Return tt, w') →
  ∃ tokens (w1 : State S R) hash old,
    encrypt (Tokens.refreshToken tokens) (runtime w1) = (Return hash, runtime w') ∧
    stored (UserEntity.id user) w = Some old ∧
    table (usersService w')
      = <[UserEntity.id user := with_refreshToken (Some hash) old]>
          (table (usersService w)) ∧
    response w' = response w ++
      session_cookies (Tokens.accessToken tokens) (Tokens.refreshToken tokens)
        (Tokens.expireAccessToken tokens) (Tokens.expireRefreshToken tokens).
Proof.
  intros (tokens & w1 & hash & u' & _ & He & Hu & Hr & _)%login_returns.
  apply update_ok in Hu as (old & Hold & -> & Ht).
  by exists tokens, w1, hash, old.
Qed.

(** X5. Login and verification round trip. After a [login] that returns,
    [verifyUserRefreshToken], called with the value of the "Refresh" cookie
    the login wrote last and with [user.id], returns the user's row: the row
    the login found, with the same credentials and with a hash. *)
Theorem login_then_verify `{!HashLaws R} (user : UserEntity.t) (w w' : State S R) :
  login user w = (Return tt, w') →
  ∃ refreshToken o old row,
    last (response w') = Some (cookie "Refresh" refreshToken o) ∧
    verifyUserRefreshToken refreshToken (UserEntity.id user) w' = (Return row, w') ∧
    stored (UserEntity.id user) w = Some old ∧
    same_credentials old row ∧
    is_Some (UserEntity.refreshToken row).
Proof.
  intros (tokens & w1 & hash & old & He & Hold & Ht & Hr)%login_row.
  exists (Tokens.refreshToken tokens),
    (CookieOptions.mk true true (Tokens.expireRefreshToken tokens)),
    old, (with_refreshToken (Some hash) old).
  split; [by rewrite Hr; unfold session_cookies; rewrite last_app|].
  split; [|done].
  rewrite verifyUserRefreshToken_cases.
  assert (Hs : findOneById (UserEntity.id user) (usersService w')
               = Return (Some (with_refreshToken (Some hash) old))).
  { apply findOneById_table. rewrite Ht. apply lookup_insert_eq. }
  rewrite Hs. cbn. by rewrite (compare_encrypt _ _ _ _ He).
Qed.

(** X6. Signup and verification round trip. A [signup] that returns has
    created a user under an id that was free, with the email of the data, and
    the value of its "Refresh" cookie is accepted for that user. From then
    on a signup with the same email throws "User already exists.". *)
Theorem signup_then_verify `{!HashLaws R}
    (userData : CreateUserDto.t) (w w' : State S R) :
  signup userData w = (Return tt, w') →
  ∃ newUser refreshToken o row,
    stored (UserEntity.id newUser) w = None ∧
    last (response w') = Some (cookie "Refresh" refreshToken o) ∧
    verifyUserRefreshToken refreshToken (UserEntity.id newUser) w'
      = (Return row, w') ∧
    same_credentials newUser row ∧
    UserEntity.email row = CreateUserDto.email userData ∧
    ∀ again,
      CreateUserDto.email again = CreateUserDto.email userData →
      signup again w'
        = (Throw (UnauthorizedException "User already exists."), w').
Proof.
  intros (_ & newUser & s1 & Hc & Hl)%signup_returns.
  apply create_ok in Hc as (Hfree & Hemail & Ht1).
  apply login_row in Hl as (tokens & w1 & hash & old & He & Hold & Ht & Hr).
  unfold stored in Hold; cbn in Hold.
  rewrite Ht1, lookup_insert_eq in Hold. injection Hold as <-.
  set (row := with_refreshToken (Some hash) newUser).
  assert (Hrow : stored (UserEntity.id newUser) w' = Some row)
    by (unfold stored; rewrite Ht; apply lookup_insert_eq).
  exists newUser, (Tokens.refreshToken tokens),
    (CookieOptions.mk true true (Tokens.expireRefreshToken tokens)), row.
  split; [done|].
  split; [by rewrite Hr; unfold session_cookies; rewrite last_app|].
  split; [|split; [done|split; [done|]]].
  - rewrite verifyUserRefreshToken_cases.
    apply findOneById_table in Hrow. rewrite Hrow. cbn.
    by rewrite (compare_encrypt _ _ _ _ He).
  - intros again Hagain.
    destruct (findOne_present (CreateUserDto.email again) (Some false)
                (usersService w') _ row Hrow) as [u' Hf];
      [by rewrite Hagain|].
    by rewrite signup_cases, Hf.
Qed.

(** X7. [signup] is not atomic. When the user has been created and the
    login part then throws, the signup throws that exception, but the created
    user stays in the store with its credentials, and the same signup made
    again throws "User already exists.". Either the signer, the hash or the
    store update threw: then no cookie has been written and the row is as it
    was created. Or a cookie was refused for an invalid expiry date: then the
    row holds the hash of the refresh token that was generated. *)
Theorem signup_leaves_user_behind
    (userData : CreateUserDto.t) (w w1 : State S R) newUser s1 e :
  findOne (CreateUserDto.email userData) (Some false) (usersService w)
    = Return None →
  create userData (usersService w) = (Return newUser, s1) →
  login newUser (set_usersService s1 w) = (Throw e, w1) →
  signup userData w = (Throw e, w1) ∧
  stored (UserEntity.id newUser) w = None ∧
  (∃ row, stored (UserEntity.id newUser) w1 = Some row ∧
          same_credentials newUser row) ∧
  signup userData w1
    = (Throw (UnauthorizedException "User already exists."), w1) ∧
  ((response w1 = response w ∧
    stored (UserEntity.id newUser) w1 = Some newUser) ∨
   (∃ tokens w0 hash,
      generateTokens (UserEntity.id newUser) (set_usersService s1 w)
        = (Return tokens, w0) ∧
      encrypt (Tokens.refreshToken tokens) (runtime w0)
        = (Return hash, runtime w1) ∧
      (Tokens.expireAccessToken tokens = None ∨
       Tokens.expireRefreshToken tokens = None) ∧
      e = cookie_TypeError ∧
      stored (UserEntity.id newUser) w1
        = Some (with_refreshToken (Some hash) newUser))).
Proof.
  intros Hf Hc Hl.
  assert (Hs : signup userData w = (Throw e, w1))
    by (by rewrite signup_cases, Hf, signup_create_cases, Hc).
  apply create_ok in Hc as (Hfree & Hemail & Ht1).
  assert (Hcases :
    (response w1 = response w ∧
     stored (UserEntity.id newUser) w1 = Some newUser) ∨
    (∃ tokens w0 hash,
       generateTokens (UserEntity.id newUser) (set_usersService s1 w)
         = (Return tokens, w0) ∧
       encrypt (Tokens.refreshToken tokens) (runtime w0)
         = (Return hash, runtime w1) ∧
       (Tokens.expireAccessToken tokens = None ∨
        Tokens.expireRefreshToken tokens = None) ∧
       e = cookie_TypeError ∧
       stored (UserEntity.id newUser) w1
         = Some (with_refreshToken (Some hash) newUser))).
  { apply login_throws_stored in Hl
      as [[Ht Hr]|(tokens & w0 & hash & u' & Hg & He & Hu & Hex & ->)].
    - left. split; [done|]. unfold stored. rewrite Ht. cbn. rewrite Ht1.
      apply lookup_insert_eq.
    - right. exists tokens, w0, hash. repeat (split; [done|]).
      apply update_ok in Hu as (row & Hrow & -> & Ht).
      cbn in Hrow. rewrite Ht1, lookup_insert_eq in Hrow. injection Hrow as <-.
      unfold stored. rewrite Ht. apply lookup_insert_eq. }
  assert (Hrow : ∃ row, stored (UserEntity.id newUser) w1 = Some row ∧
                        same_credentials newUser row).
  { destruct Hcases as [[_ Hr]|(tokens & w0 & hash & _ & _ & _ & _ & Hr)].
    - exists newUser. split; [done|]. apply same_credentials_refl.
    - eexists. split; [exact Hr|].
      apply same_credentials_with_refreshToken, same_credentials_refl. }
  split; [done|]. split; [done|]. split; [done|]. split; [|done].
  destruct Hrow as (row & Hrow & (_ & _ & Hrowmail & _)).
  destruct (findOne_present (CreateUserDto.email userData) (Some false)
              (usersService w1) _ row Hrow) as [u' Hf']; [congruence|].
  by rewrite signup_cases, Hf'.
Qed.

(** X8. Logging out twice is logging out once: after a [logout] that
    returns, a second [logout] of the same user that returns leaves every row
    as the first one left it. *)
Theorem logout_twice (user user' : UserEntity.t) (w w1 w2 : State S R) :
  UserEntity.id user' = UserEntity.id user →
  logout user w = (Return tt, w1) →
  logout user' w1 = (Return tt, w2) →
  table (usersService w2) = table (usersService w1) ∧
  ∃ row, stored (UserEntity.id user) w2 = Some row ∧
         UserEntity.refreshToken row = None.
Proof.
  intros Hid (row & Hrow & Ht & _)%logout_returns
    (row1 & Hrow1 & Ht1 & _)%logout_returns.
  rewrite Hid in Hrow1, Ht1.
  unfold stored in Hrow1. rewrite Ht, lookup_insert_eq in Hrow1.
  injection Hrow1 as <-.
  assert (Heq : table (usersService w2) = table (usersService w1)).
  { rewrite Ht1. apply insert_id. rewrite Ht. apply lookup_insert_eq. }
  split; [done|].
  exists (with_refreshToken None row). split; [|done].
  unfold stored. rewrite Heq, Ht. apply lookup_insert_eq.
Qed.

(** X9. A user record whose row is missing from the store gets no
    session and loses none: [login] throws without writing a cookie, [logout]
    throws without clearing one, both leave every row as it was, and every
    refresh token presented for that id is refused. *)
Theorem missing_row (user : UserEntity.t) (w : State S R) :
  stored (UserEntity.id user) w = None →
  (∃ e w', login user w = (Throw e, w') ∧ response w' = response w ∧
           table (usersService w') = table (usersService w)) ∧
  (∃ e w', logout user w = (Throw e, w') ∧ response w' = response w ∧
           table (usersService w') = table (usersService w)) ∧
  (∀ refreshToken,
     verifyUserRefreshToken refreshToken (UserEntity.id user) w
       = (Throw (UnauthorizedException "Refresh token is not valid."), w)).
Proof.
  intros Hnone. split; [|split].
  - destruct (login user w) as [[[]|e] w'] eqn:Hl.
    + apply login_row in Hl as (? & ? & ? & old & _ & Hold & _). congruence.
    + exists e, w'. split; [done|].
      apply login_throws_stored in Hl
        as [[Ht Hr]|(tokens & w1 & hash & u' & _ & _ & Hu & _)]; [done|].
      apply update_ok in Hu as (row & Hrow & _). unfold stored in Hnone.
      congruence.
  - destruct (logout user w) as [[[]|e] w'] eqn:Hl.
    + apply logout_returns in Hl as (old & Hold & _). congruence.
    + exists e, w'. split; [done|].
      pose proof Hl as Hl'. rewrite logout_cases in Hl'.
      destruct (update _ _ (usersService w)) as [[u'|e'] s']; [discriminate|].
      injection Hl' as _ <-.
      by apply logout_table in Hl as [Ht|[[=] _]].
  - intros refreshToken. rewrite verifyUserRefreshToken_cases.
    destruct (findOneById _ _) as [[u|]|e] eqn:Hf; try done.
    apply findOneById_table in Hf. unfold stored in Hnone. congruence.
Qed.

End RoundTrips.

(** ** The cookies of a session *)

Section Cookies.
Context {S R : Type} `{UsersService S} `{Runtime R}.

(** X10. [logout] clears exactly the cookies [login] sets. A [login]
    that returns has added two [cookie] calls to the response, under the
    names "Authentication" and "Refresh"; a [logout] that returns has added
    two [clearCookie] calls, under "Refresh" and "Authentication": the names
    cleared are the names set, no more and no less. *)
Theorem logout_clears_what_login_set
    (user user' : UserEntity.t) (w w1 v v1 : State S R) :
  login user w = (Return tt, w1) →
  logout user' v = (Return tt, v1) →
  ∃ set cleared,
    response w1 = response w ++ set ∧
    response v1 = response v ++ cleared ∧
    forallb is_cookie set = true ∧
    forallb (λ c, negb (is_cookie c)) cleared = true ∧
    call_name <$> set = ["Authentication"; "Refresh"]%string ∧
    call_name <$> cleared = ["Refresh"; "Authentication"]%string ∧
    ∀ name, name ∈ (call_name <$> set) ↔ name ∈ (call_name <$> cleared).
Proof.
  intros (tokens & _ & _ & _ & _ & _ & _ & Hr & _)%login_returns Hl.
  rewrite logout_cases in Hl.
  destruct (update _ _ (usersService v)) as [[u'|e] s']; [|discriminate].
  injection Hl as <-. cbn [response].
  eexists _, _. split; [exact Hr|]. split; [reflexivity|].
  repeat (split; [reflexivity|]).
  intros name. cbn. rewrite !elem_of_cons, !elem_of_nil. tauto.
Qed.

End Cookies.

(** ** The further properties on the store in memory *)

(** A lifetime with a blank after the numeral, and one with a fraction. *)
Lemma lifetime_suffix_dropped_for_cookie_witness :
  ∃ tokens w',
    generateTokens "u1" (world_with_lifetimes "900000 " "604800000.5")
      = (Return tokens, w') ∧
    Tokens.expireAccessToken tokens = Some (1000 + 900000) ∧
    Tokens.expireRefreshToken tokens = Some (1001 + 604800000) ∧
    SignOptions.expiresIn
      (access_options (process_env (world_with_lifetimes "900000 " "604800000.5")))
      = "900000 ms"%string ∧
    SignOptions.expiresIn
      (refresh_options (process_env (world_with_lifetimes "900000 " "604800000.5")))
      = "604800000.5ms"%string.
Proof.
  set (w := world_with_lifetimes "900000 " "604800000.5").
  assert (Hg : ∃ tokens w', generateTokens "u1" w = (Return tokens, w'))
    by (eexists _, _; vm_compute; reflexivity).
  destruct Hg as (tokens & w' & Hg). exists tokens, w'. split; [exact Hg|].
  destruct (lifetime_suffix_dropped_for_cookie "u1" w w' tokens 1000 1001 1001 1002 Hg)
    as [Ha Hr]; [vm_compute; reflexivity ..|].
  destruct (Ha 900000%N " "%string) as (Hoa & _ & Hea);
    [vm_compute; reflexivity ..|].
  destruct (Hr 604800000%N ".5"%string) as (Hor & _ & Her);
    [vm_compute; reflexivity ..|].
  split; [apply Hea; [lia|unfold max_time; lia]|].
  split; [apply Her; [lia|unfold max_time; lia]|].
  split; [exact Hoa|exact Hor].
Defined.

(** A lifetime with a minus sign, and one that begins with a dot. *)
Lemma lifetime_not_validated_witness :
  ∃ tokens w',
    generateTokens "u1" (world_with_lifetimes "-5" ".5")
      = (Return tokens, w') ∧
    (∃ ea, Tokens.expireAccessToken tokens = Some ea ∧ ea = 1000 - 5 ∧ ea ≤ 1000) ∧
    Tokens.expireRefreshToken tokens = None.
Proof.
  set (w := world_with_lifetimes "-5" ".5").
  assert (Hg : ∃ tokens w', generateTokens "u1" w = (Return tokens, w'))
    by (eexists _, _; vm_compute; reflexivity).
  destruct Hg as (tokens & w' & Hg). exists tokens, w'. split; [exact Hg|].
  destruct (lifetime_not_validated "u1" w w' tokens 1000 1001 1001 1002 Hg)
    as (Hneg & _ & _ & Hnan & _); [vm_compute; reflexivity ..|].
  split.
  - apply (Hneg 5%N); [vm_compute; reflexivity|lia|unfold max_time; lia].
  - apply (Hnan ".5"%string); vm_compute; reflexivity.
Defined.

Lemma row_changed_only_by_its_user_witness :
  let later :=
    run [Login bob; Signup carol_data; Logout bob;
         ValidateUser "alice@example.com" "guess"] world1 in
  stored "u1" later = stored "u1" world1 ∧
  (verifyUserRefreshToken alice_refresh "u1" later).1
    = (verifyUserRefreshToken alice_refresh "u1" world1).1.
Proof.
  cbv zeta.
  assert (Hu : ∃ u, stored "u1" world1 = Some u)
    by (eexists; vm_compute; reflexivity).
  destruct Hu as [u Hu].
  destruct (row_changed_only_by_its_user
              [Login bob; Signup carol_data; Logout bob;
               ValidateUser "alice@example.com" "guess"] world1 "u1" u Hu)
    as [Hrow Hverify].
  { repeat constructor. }
  split; [by rewrite Hrow, Hu|apply Hverify].
Defined.

Lemma users_and_credentials_kept_witness :
  let later := run [Login alice; Logout alice; Signup carol_data] world0 in
  (∃ u', stored "u1" later = Some u' ∧ same_credentials alice u') ∧
  stored "u9" (run [Login ghost; Logout ghost] world0) = None.
Proof.
  cbv zeta. split.
  - apply (users_and_credentials_kept
             [Login alice; Logout alice; Signup carol_data] world0 "u1").
    vm_compute; reflexivity.
  - apply (users_and_credentials_kept [Login ghost; Logout ghost] world0 "u9").
    + repeat constructor.
    + vm_compute; reflexivity.
Defined.

Lemma login_then_verify_witness :
  ∃ refreshToken o row,
    last (response world1) = Some (cookie "Refresh" refreshToken o) ∧
    verifyUserRefreshToken refreshToken "u1" world1 = (Return row, world1).
Proof.
  destruct (login_then_verify alice world0 world1)
    as (refreshToken & o & old & row & Hlast & Hv & _);
    [vm_compute; reflexivity|].
  exists refreshToken, o, row. split; [exact Hlast|exact Hv].
Defined.

Lemma signup_then_verify_witness :
  ∃ w' newUser refreshToken o row,
    signup carol_data world0 = (Return tt, w') ∧
    last (response w') = Some (cookie "Refresh" refreshToken o) ∧
    verifyUserRefreshToken refreshToken (UserEntity.id newUser) w'
      = (Return row, w') ∧
    signup carol_data w'
      = (Throw (UnauthorizedException "User already exists."), w').
Proof.
  assert (Hs : ∃ w', signup carol_data world0 = (Return tt, w'))
    by (eexists; vm_compute; reflexivity).
  destruct Hs as [w' Hs].
  destruct (signup_then_verify carol_data world0 w' Hs)
    as (newUser & refreshToken & o & row & _ & Hlast & Hv & _ & _ & Hagain).
  exists w', newUser, refreshToken, o, row.
  split; [exact Hs|]. split; [exact Hlast|]. split; [exact Hv|].
  apply Hagain. reflexivity.
Defined.

(** A signup without the secret of the refresh token: the signer throws
    after carol has been created. *)
Lemma signup_leaves_user_behind_witness :
  let w1 := (signup carol_data world_without_secret).2 in
  signup carol_data world_without_secret
    = (Throw (Error "secretOrPrivateKey must have a value"), w1) ∧
  response w1 = [] ∧
  stored "user-2" w1 = Some carol_row ∧
  signup carol_data w1
    = (Throw (UnauthorizedException "User already exists."), w1).
Proof.
  cbv zeta.
  destruct (signup_leaves_user_behind carol_data world_without_secret
              (signup carol_data world_without_secret).2
              carol_row store_with_carol
              (Error "secretOrPrivateKey must have a value"))
    as (Hs & _ & _ & Hagain & Hcases); [vm_compute; reflexivity ..|].
  split; [exact Hs|].
  destruct Hcases as [[Hr Hrow]|(tokens & w0 & hash & _ & _ & _ & He & _)];
    [|discriminate He].
  split; [exact Hr|]. split; [exact Hrow|exact Hagain].
Defined.

Lemma logout_twice_witness :
  table (usersService (logout alice world2).2) = table (usersService world2).
Proof.
  apply (logout_twice alice alice world1 world2 (logout alice world2).2);
    [reflexivity|vm_compute; reflexivity ..].
Defined.

Lemma missing_row_witness :
  (∃ e w', login ghost world0 = (Throw e, w') ∧ response w' = response world0) ∧
  (∃ e w', logout ghost world0 = (Throw e, w') ∧ response w' = response world0).
Proof.
  destruct (missing_row ghost world0) as (Hlogin & Hlogout & _);
    [vm_compute; reflexivity|].
  split.
  - destruct Hlogin as (e & w' & Hl & Hr & _). exists e, w'.
    split; [exact Hl|exact Hr].
  - destruct Hlogout as (e & w' & Hl & Hr & _). exists e, w'.
    split; [exact Hl|exact Hr].
Defined.

(** Alice's login and her logout. *)
Lemma logout_clears_what_login_set_witness :
  ∃ set cleared,
    response world1 = set ∧
    response (logout alice (set_response [] world1)).2 = cleared ∧
    call_name <$> set = ["Authentication"; "Refresh"]%string ∧
    call_name <$> cleared = ["Refresh"; "Authentication"]%string.
Proof.
  destruct (logout_clears_what_login_set alice alice world0 world1
              (set_response [] world1) (logout alice (set_response [] world1)).2)
    as (set & cleared & Hs & Hc & _ & _ & Hns & Hnc & _);
    [vm_compute; reflexivity ..|].
  exists set, cleared. split; [exact Hs|]. split; [exact Hc|].
  split; [exact Hns|exact Hnc].
Defined.
